(** * Ubuntu_Requests: a shallow embedding of the image fetcher

    The development follows [Ubuntu_Requests.py]: the helpers
    [get_filename_from_url] and [safe_filename], the pipeline [fetch_image]
    and the driver [main].  Python text is a [string] whose characters are
    the code points below 256; bytes objects are lists of [byte].  The
    library routines the program calls ([urllib.parse], [posixpath],
    [hashlib.md5], the [str] methods) are written out after their CPython
    3.11 sources; the network and the faults of the file system are an
    explicit [world] the pipeline is run in, and the [directory] argument
    of the functions is the state of the target directory, threaded
    through the calls. *)

From Stdlib Require Import String Ascii Strings.Byte List ZArith NArith Lia Bool Arith.
From Stdlib Require Import Decimal DecimalNat DecimalString Finite.
From Stdlib Require DecimalFacts.
Import ListNotations.

Open Scope string_scope.

(** ** Exceptions and results *)

Module Py.

(** The exception classes the program can meet, with their method
    resolution order. *)
Inductive exn_class :=
| BaseException | KeyboardInterrupt | Exception
| ValueError | OSError | RequestException | HTTPError.

Definition exn_class_eqb (a b : exn_class) : bool :=
  match a, b with
  | BaseException, BaseException | KeyboardInterrupt, KeyboardInterrupt
  | Exception, Exception | ValueError, ValueError | OSError, OSError
  | RequestException, RequestException | HTTPError, HTTPError => true
  | _, _ => false
  end.

Definition mro (c : exn_class) : list exn_class :=
  match c with
  | BaseException => [BaseException]
  | KeyboardInterrupt => [KeyboardInterrupt; BaseException]
  | Exception => [Exception; BaseException]
  | ValueError => [ValueError; Exception; BaseException]
  | OSError => [OSError; Exception; BaseException]
  | RequestException => [RequestException; OSError; Exception; BaseException]
  | HTTPError =>
      [HTTPError; RequestException; OSError; Exception; BaseException]
  end.

Definition issubclass (c k : exn_class) : bool :=
  existsb (exn_class_eqb k) (mro c).

Record exn := mkExn { exn_type : exn_class; exn_text : string }.

Inductive result (A : Type) :=
| Return (a : A)
| Raise (e : exn).
Arguments Return {A} a.
Arguments Raise {A} e.

Definition bind {A B} (r : result A) (k : A -> result B) : result B :=
  match r with
  | Return a => k a
  | Raise e => Raise e
  end.

Definition raises {A} (r : result A) : bool :=
  match r with Return _ => false | Raise _ => true end.

End Py.
Import Py.

Notation "x <- r ;; k" := (Py.bind r (fun x => k))
  (at level 61, r at next level, right associativity).
Notation "' pat <- r ;; k" :=
  (Py.bind r (fun x => match x with pat => k end))
  (at level 61, pat pattern, r at next level, right associativity).

(** ** The [str] methods and [posixpath] functions used by the program *)

Module Str.

Definition slash : ascii := "/"%char.
Definition dot : ascii := "."%char.

Fixpoint contains (c : ascii) (s : string) : bool :=
  match s with
  | EmptyString => false
  | String a s' => Ascii.eqb a c || contains c s'
  end.

(** [s.find(c)] and [s.rfind(c)]: the index of the first (last) occurrence,
    [-1] when there is none. *)
Fixpoint find (c : ascii) (s : string) : Z :=
  match s with
  | EmptyString => (-1)%Z
  | String a s' =>
      if Ascii.eqb a c then 0%Z
      else let i := find c s' in if (i <? 0)%Z then (-1)%Z else (i + 1)%Z
  end.

Fixpoint rfind (c : ascii) (s : string) : Z :=
  match s with
  | EmptyString => (-1)%Z
  | String a s' =>
      let i := rfind c s' in
      if (0 <=? i)%Z then (i + 1)%Z
      else if Ascii.eqb a c then 0%Z else (-1)%Z
  end.

Fixpoint take (n : nat) (s : string) : string :=
  match n, s with
  | S n', String a s' => String a (take n' s')
  | _, _ => EmptyString
  end.

Fixpoint drop (n : nat) (s : string) : string :=
  match n, s with
  | S n', String _ s' => drop n' s'
  | _, _ => s
  end.

(** Slices [s[:i]] and [s[i:]] for an index [0 <= i]. *)
Definition upto (i : Z) (s : string) : string := take (Z.to_nat i) s.
Definition from (i : Z) (s : string) : string := drop (Z.to_nat i) s.

Fixpoint startswith (p s : string) : bool :=
  match p, s with
  | EmptyString, _ => true
  | String a p', String b s' => Ascii.eqb a b && startswith p' s'
  | String _ _, EmptyString => false
  end.

Definition nonempty (s : string) : bool :=
  match s with EmptyString => false | String _ _ => true end.

(** [str(n)] for a non-negative integer. *)
Definition of_nat (n : nat) : string := NilEmpty.string_of_uint (Nat.to_uint n).

(** [str.isspace] on one character (code points below 256). *)
Definition isspace (c : ascii) : bool :=
  let n := nat_of_ascii c in
  ((9 <=? n)%nat && (n <=? 13)%nat) || ((28 <=? n)%nat && (n <=? 32)%nat)
  || (n =? 133)%nat || (n =? 160)%nat.

Fixpoint lstrip (s : string) : string :=
  match s with
  | String a s' => if isspace a then lstrip s' else s
  | EmptyString => EmptyString
  end.

Fixpoint rstrip (s : string) : string :=
  match s with
  | EmptyString => EmptyString
  | String a s' =>
      match rstrip s' with
      | EmptyString => if isspace a then EmptyString else String a EmptyString
      | r => String a r
      end
  end.

Definition strip (s : string) : string := rstrip (lstrip s).

Fixpoint all_space (s : string) : bool :=
  match s with
  | EmptyString => true
  | String a s' => isspace a && all_space s'
  end.

(** [s.split(c)] for a one-character separator: one more piece than there
    are separators. *)
Fixpoint split (c : ascii) (s : string) : list string :=
  match s with
  | EmptyString => [EmptyString]
  | String a s' =>
      if Ascii.eqb a c then EmptyString :: split c s'
      else match split c s' with
           | p :: ps => String a p :: ps
           | [] => [String a EmptyString]
           end
  end.

Fixpoint join (c : ascii) (ps : list string) : string :=
  match ps with
  | [] => EmptyString
  | [p] => p
  | p :: ps' => p ++ String c (join c ps')
  end.

(** [posixpath.basename]: [i = p.rfind('/') + 1; return p[i:]]. *)
Definition basename (p : string) : string := from (rfind slash p + 1) p.

(** [genericpath._splitext] with [sep = '/'], no [altsep], [extsep = '.']:
    the loop looks for a character other than a dot between the last
    separator and the last dot. *)
Fixpoint all_dots_between (fuel : nat) (i dotIndex : Z) (p : string) : bool :=
  match fuel with
  | O => true
  | S fuel' =>
      if (i <? dotIndex)%Z then
        match from i p with
        | String a _ =>
            if Ascii.eqb a dot then all_dots_between fuel' (i + 1) dotIndex p
            else false
        | EmptyString => false
        end
      else true
  end.

Definition splitext (p : string) : string * string :=
  let sepIndex := rfind slash p in
  let dotIndex := rfind dot p in
  if (sepIndex <? dotIndex)%Z then
    if all_dots_between (String.length p) (sepIndex + 1) dotIndex p
    then (p, EmptyString)
    else (upto dotIndex p, from dotIndex p)
  else (p, EmptyString).

End Str.

(** ** [hashlib.md5(data).hexdigest()] (RFC 1321) *)

Module MD5.

Local Open Scope N_scope.

Definition mask32 : N := 0xFFFFFFFF.
Definition add32 (a b : N) : N := N.land (a + b) mask32.
Definition not32 (a : N) : N := N.lxor a mask32.
Definition rotl32 (x s : N) : N :=
  N.land (N.lor (N.shiftl x s) (N.shiftr x (32 - s))) mask32.

Definition K : list N :=
  [ 0xd76aa478; 0xe8c7b756; 0x242070db; 0xc1bdceee;
    0xf57c0faf; 0x4787c62a; 0xa8304613; 0xfd469501;
    0x698098d8; 0x8b44f7af; 0xffff5bb1; 0x895cd7be;
    0x6b901122; 0xfd987193; 0xa679438e; 0x49b40821;
    0xf61e2562; 0xc040b340; 0x265e5a51; 0xe9b6c7aa;
    0xd62f105d; 0x02441453; 0xd8a1e681; 0xe7d3fbc8;
    0x21e1cde6; 0xc33707d6; 0xf4d50d87; 0x455a14ed;
    0xa9e3e905; 0xfcefa3f8; 0x676f02d9; 0x8d2a4c8a;
    0xfffa3942; 0x8771f681; 0x6d9d6122; 0xfde5380c;
    0xa4beea44; 0x4bdecfa9; 0xf6bb4b60; 0xbebfbc70;
    0x289b7ec6; 0xeaa127fa; 0xd4ef3085; 0x04881d05;
    0xd9d4d039; 0xe6db99e5; 0x1fa27cf8; 0xc4ac5665;
    0xf4292244; 0x432aff97; 0xab9423a7; 0xfc93a039;
    0x655b59c3; 0x8f0ccc92; 0xffeff47d; 0x85845dd1;
    0x6fa87e4f; 0xfe2ce6e0; 0xa3014314; 0x4e0811a1;
    0xf7537e82; 0xbd3af235; 0x2ad7d2bb; 0xeb86d391 ].

Definition shifts : list N :=
  [ 7; 12; 17; 22; 7; 12; 17; 22; 7; 12; 17; 22; 7; 12; 17; 22;
    5; 9; 14; 20; 5; 9; 14; 20; 5; 9; 14; 20; 5; 9; 14; 20;
    4; 11; 16; 23; 4; 11; 16; 23; 4; 11; 16; 23; 4; 11; 16; 23;
    6; 10; 15; 21; 6; 10; 15; 21; 6; 10; 15; 21; 6; 10; 15; 21 ].

Definition state : Type := N * N * N * N.

Definition init : state := (0x67452301, 0xefcdab89, 0x98badcfe, 0x10325476).

(** The round function and the index of the message word of step [i]. *)
Definition mix (i : nat) (b c d : N) : N * nat :=
  if (i <? 16)%nat then
    (N.lor (N.land b c) (N.land (not32 b) d), i)
  else if (i <? 32)%nat then
    (N.lor (N.land d b) (N.land (not32 d) c), ((5 * i + 1) mod 16)%nat)
  else if (i <? 48)%nat then
    (N.lxor (N.lxor b c) d, ((3 * i + 5) mod 16)%nat)
  else
    (N.lxor c (N.lor b (not32 d)), ((7 * i) mod 16)%nat).

Definition step (M : list N) (st : state) (i : nat) : state :=
  let '(a, b, c, d) := st in
  let (f, g) := mix i b c d in
  let f' := add32 (add32 (add32 f a) (nth i K 0)) (nth g M 0) in
  (d, add32 b (rotl32 f' (nth i shifts 0)), b, c).

Definition compress (st : state) (M : list N) : state :=
  let '(a0, b0, c0, d0) := st in
  let '(a, b, c, d) := fold_left (step M) (seq 0 64) st in
  (add32 a0 a, add32 b0 b, add32 c0 c, add32 d0 d).

(** Little-endian words. *)
Fixpoint le_bytes (n : nat) (x : N) : list N :=
  match n with
  | O => []
  | S n' => N.land x 0xFF :: le_bytes n' (N.shiftr x 8)
  end.

Fixpoint le_words (fuel : nat) (bs : list N) : list N :=
  match fuel, bs with
  | S fuel', b0 :: b1 :: b2 :: b3 :: rest =>
      (b0 + N.shiftl b1 8 + N.shiftl b2 16 + N.shiftl b3 24)
        :: le_words fuel' rest
  | _, _ => []
  end.

Definition pad (bs : list N) : list N :=
  let len := List.length bs in
  let zeros := ((64 + 55 - len mod 64) mod 64)%nat in
  bs ++ [0x80] ++ repeat 0 zeros
     ++ le_bytes 8 (N.land (8 * N.of_nat len) 0xFFFFFFFFFFFFFFFF).

Fixpoint blocks (fuel : nat) (st : state) (bs : list N) : state :=
  match fuel, bs with
  | S fuel', _ :: _ =>
      blocks fuel' (compress st (le_words 16 (firstn 64 bs))) (skipn 64 bs)
  | _, _ => st
  end.

Definition digest (data : list byte) : list N :=
  let bs := pad (map Byte.to_N data) in
  let '(a, b, c, d) := blocks (List.length bs) init bs in
  le_bytes 4 a ++ le_bytes 4 b ++ le_bytes 4 c ++ le_bytes 4 d.

Definition hex_digit (x : N) : ascii :=
  nth (N.to_nat x)
      ["0"; "1"; "2"; "3"; "4"; "5"; "6"; "7"; "8"; "9";
       "a"; "b"; "c"; "d"; "e"; "f"]%char "0"%char.

Fixpoint hex (bs : list N) : string :=
  match bs with
  | [] => EmptyString
  | b :: bs' =>
      String (hex_digit (N.shiftr b 4)) (String (hex_digit (N.land b 0xF)) (hex bs'))
  end.

Definition hexdigest (data : list byte) : string := hex (digest data).

End MD5.

(** ** [urllib.parse.urlparse] *)

Module UrlParse.

Import Str.

Record ParseResult := mkParseResult {
  scheme : string; netloc : string; path : string;
  params : string; query : string; fragment : string }.

Definition code (c : ascii) : nat := nat_of_ascii c.

(** [_WHATWG_C0_CONTROL_OR_SPACE] and [_UNSAFE_URL_BYTES_TO_REMOVE]. *)
Definition c0_control_or_space (c : ascii) : bool := (code c <=? 32)%nat.
Definition unsafe_byte (c : ascii) : bool :=
  (code c =? 9)%nat || (code c =? 13)%nat || (code c =? 10)%nat.

Fixpoint lstrip_c0 (s : string) : string :=
  match s with
  | String a s' => if c0_control_or_space a then lstrip_c0 s' else s
  | EmptyString => EmptyString
  end.

Fixpoint remove_unsafe (s : string) : string :=
  match s with
  | String a s' =>
      if unsafe_byte a then remove_unsafe s' else String a (remove_unsafe s')
  | EmptyString => EmptyString
  end.

Definition is_upper (c : ascii) : bool := (65 <=? code c)%nat && (code c <=? 90)%nat.
Definition is_lower (c : ascii) : bool := (97 <=? code c)%nat && (code c <=? 122)%nat.
Definition is_digit (c : ascii) : bool := (48 <=? code c)%nat && (code c <=? 57)%nat.

(** [c.isascii() and c.isalpha()]. *)
Definition ascii_alpha (c : ascii) : bool := is_upper c || is_lower c.

Definition scheme_char (c : ascii) : bool :=
  ascii_alpha c || is_digit c
  || Ascii.eqb c "+" || Ascii.eqb c "-" || Ascii.eqb c ".".

Fixpoint all_chars (f : ascii -> bool) (s : string) : bool :=
  match s with
  | EmptyString => true
  | String a s' => f a && all_chars f s'
  end.

Definition lower_char (c : ascii) : ascii :=
  if is_upper c then ascii_of_nat (code c + 32) else c.

Fixpoint lower (s : string) : string :=
  match s with
  | EmptyString => EmptyString
  | String a s' => String (lower_char a) (lower s')
  end.

Definition uses_params : list string :=
  [""; "ftp"; "hdl"; "prospero"; "http"; "imap"; "https"; "shttp"; "rtsp";
   "rtspu"; "sip"; "sips"; "mms"; "sftp"; "tel"].

(** [s.find(c, start)]. *)
Definition find_from (c : ascii) (start : Z) (s : string) : Z :=
  let i := find c (from start s) in
  if (i <? 0)%Z then (-1)%Z else (i + start)%Z.

(** [s.partition(c)] and [s.rpartition(c)] as (before, found, after). *)
Definition partition (c : ascii) (s : string) : string * bool * string :=
  let i := find c s in
  if (i <? 0)%Z then (s, false, EmptyString)
  else (upto i s, true, from (i + 1) s).

Definition rpartition (c : ascii) (s : string) : string * bool * string :=
  let i := rfind c s in
  if (i <? 0)%Z then (EmptyString, false, s)
  else (upto i s, true, from (i + 1) s).

Definition splitnetloc (url : string) (start : Z) : string * string :=
  let delim :=
    fold_left
      (fun delim c =>
         let wdelim := find_from c start url in
         if (0 <=? wdelim)%Z then Z.min delim wdelim else delim)
      ["/"; "?"; "#"]%char (Z.of_nat (String.length url)) in
  (upto (delim - start) (from start url), from delim url).

Definition invalid_ipv6 : exn := mkExn ValueError "Invalid IPv6 URL".

Section Parse.

(** [_check_bracketed_host]: the text between the brackets has to be an
    IPvFuture or IPv6 literal.  The address grammar of [ipaddress] is not
    written out; the test is a parameter. *)
Variable bracketed_host_ok : string -> bool.

Definition check_bracketed_netloc (netloc : string) : result unit :=
  let '(_, _, hostname_and_port) := rpartition "@" netloc in
  let '(before_bracket, have_open_br, bracketed) :=
    partition "[" hostname_and_port in
  hostname <-
    (if have_open_br then
       if nonempty before_bracket then Raise invalid_ipv6
       else
         let '(hostname, _, port) := partition "]" bracketed in
         if nonempty port && negb (startswith ":" port)
         then Raise invalid_ipv6
         else Return hostname
     else
       let '(hostname, _, _) := partition ":" hostname_and_port in
       Return hostname) ;;
  if bracketed_host_ok hostname then Return tt
  else Raise (mkExn ValueError "invalid bracketed host").

(** [urlsplit]: the five components.  [_checknetloc] only rejects a netloc
    whose NFKC form gains one of [/?#@:]; no code point below 256 does, so
    it is the identity here. *)
Definition urlsplit (url0 : string)
  : result (string * string * string * string * string) :=
  let url := remove_unsafe (lstrip_c0 url0) in
  let i := find ":" url in
  let '(scheme, url) :=
    match url with
    | String c0 _ =>
        if (0 <? i)%Z && ascii_alpha c0 && all_chars scheme_char (upto i url)
        then (lower (upto i url), from (i + 1) url)
        else (EmptyString, url)
    | EmptyString => (EmptyString, url)
    end in
  '(netloc, url) <-
    (if startswith "//" url then
       let '(netloc, url) := splitnetloc url 2 in
       let has_open := contains "[" netloc in
       let has_close := contains "]" netloc in
       if (has_open && negb has_close) || (has_close && negb has_open)
       then Raise invalid_ipv6
       else
         _ <- (if has_open && has_close then check_bracketed_netloc netloc
               else Return tt) ;;
         Return (netloc, url)
     else Return (EmptyString, url)) ;;
  let '(url, _, fragment) := partition "#" url in
  let '(url, _, query) := partition "?" url in
  Return (scheme, netloc, url, query, fragment).

(** [_splitparams]. *)
Definition splitparams (url : string) : string * string :=
  if contains "/" url then
    let i := find_from ";" (rfind "/" url) url in
    if (i <? 0)%Z then (url, EmptyString)
    else (upto i url, from (i + 1) url)
  else
    let i := find ";" url in
    (upto i url, from (i + 1) url).

Definition urlparse (url : string) : result ParseResult :=
  '(scheme, netloc, url, query, fragment) <- urlsplit url ;;
  let '(url, params) :=
    if existsb (String.eqb scheme) uses_params && contains ";" url
    then splitparams url
    else (url, EmptyString) in
  Return (mkParseResult scheme netloc url params query fragment).

End Parse.

End UrlParse.

(** ** The target directory *)

Module FS.

(** An entry of the directory: a regular file with its bytes and whether
    this process may read it, or something that is not a regular file. *)
Inductive entry :=
| File (data : list byte) (readable : bool)
| Directory.

(** The children of the directory, in the order [iterdir] yields them. *)
Definition listing : Type := list (string * entry).

(** [None]: the directory does not exist yet. *)
Definition dir_state : Type := option listing.

Definition entries (s : dir_state) : listing :=
  match s with Some d => d | None => [] end.

Definition names (d : listing) : list string := map fst d.

Fixpoint lookup (name : string) (d : listing) : option entry :=
  match d with
  | [] => None
  | (n, e) :: d' => if String.eqb n name then Some e else lookup name d'
  end.

Definition is_file (e : entry) : bool :=
  match e with File _ _ => true | Directory => false end.

(** [(Path(directory) / name).exists()] for a name without slash that
    the file system accepts: the empty name and [.] give the directory
    itself, [..] its parent, any other name an entry or nothing.  The
    test of a name the file system refuses is [Checked.exists_] below. *)
Definition exists_ (d : listing) (name : string) : bool :=
  String.eqb name "" || String.eqb name "." || String.eqb name ".."
  || match lookup name d with Some _ => true | None => false end.

(** Creating or replacing the file [name].  [iterdir] promises no order
    for a new file; it is listed last here. *)
Fixpoint put (name : string) (e : entry) (d : listing) : listing :=
  match d with
  | [] => [(name, e)]
  | (n, e') :: d' =>
      if String.eqb n name then (n, e) :: d' else (n, e') :: put name e d'
  end.


End FS.
Import FS.

(** ** The world a fetch runs in *)

Record response := mkResponse {
  status_code : nat;
  (** [headers.get("Content-Type")] *)
  content_type_header : option string;
  (** [response.content] of a streamed response: the body, or the message of
      the transport error met while reading it *)
  content : string + list byte }.

(** What [open(path, 'wb')] followed by [f.write(data)] does. *)
Inductive write_result :=
| Written
| OpenFailed (message : string)
| WriteFailed (kept : nat) (message : string).

Record world := mkWorld {
  (** [requests.get(url, timeout=10, stream=True)]: a response, or the
      message of the [RequestException] raised *)
  http_get : string -> string + response;
  (** the error of [os.makedirs] when the directory is missing and cannot
      be created *)
  mkdir_error : option string;
  (** the fate of a write, by file name and data *)
  disk : string -> list byte -> write_result }.

(** The terminal report of one fetch: which of the [print] calls of
    [fetch_image] ran, with the values they show. *)
Inductive outcome :=
| Saved (filename : string)
| SkippedNotImage (url content_type : string)
| SkippedDuplicate (filename : string)
| Failed (message : string).

(** ** The program *)

Section Program.

Variable bracketed_host_ok : string -> bool.

Definition get_filename_from_url (url : string) : result string :=
  parsed_url <- UrlParse.urlparse bracketed_host_ok url ;;
  let filename := Str.basename (UrlParse.path parsed_url) in
  if negb (Str.nonempty filename) || negb (Str.contains Str.dot filename)
  then Return "downloaded_image.jpg"
  else Return filename.

(** [f"{name}_{counter}{ext}"] *)
Definition candidate (name ext : string) (counter : nat) : string :=
  name ++ "_" ++ Str.of_nat counter ++ ext.

Section Probe.

(** [(Path(directory) / f).exists()] for the directory probed. *)
Variable path_exists : string -> bool.

(** The [while True] loop of [safe_filename], run for at most [fuel]
    rounds; [None] when the fuel is used up. *)
Fixpoint probe (fuel : nat) (name ext : string) (counter : nat)
  : option string :=
  match fuel with
  | O => None
  | S fuel' =>
      let new_filename := candidate name ext counter in
      if negb (path_exists new_filename) then Some new_filename
      else probe fuel' name ext (S counter)
  end.

Definition safe_filename_within (fuel : nat) (filename : string)
  : option string :=
  if path_exists filename then
    let (name, ext) := Str.splitext filename in
    probe fuel name ext 1
  else Some filename.

End Probe.

(** [safe_filename] on a listing: more rounds than there are entries are
    never needed ([safe_filename_within_enough]), so the last branch is
    never taken. *)
Definition safe_filename (d : listing) (filename : string) : string :=
  match safe_filename_within (exists_ d) (S (List.length d)) filename with
  | Some f => f
  | None => filename
  end.

Definition makedirs (w : world) (s : dir_state) : result listing :=
  match s with
  | Some d => Return d
  | None =>
      match mkdir_error w with
      | None => Return []
      | Some message => Raise (mkExn OSError message)
      end
  end.

Definition requests_get (w : world) (url : string) : result response :=
  match http_get w url with
  | inr r => Return r
  | inl message => Raise (mkExn RequestException message)
  end.

(** [Response.raise_for_status]: an [HTTPError] for 4xx and 5xx; the
    reason phrase of the status line is left out of its message. *)
Definition raise_for_status (url : string) (r : response) : result unit :=
  let code := status_code r in
  if (400 <=? code)%nat && (code <? 500)%nat then
    Raise (mkExn HTTPError
             (Str.of_nat code ++ " Client Error for url: " ++ url))
  else if (500 <=? code)%nat && (code <? 600)%nat then
    Raise (mkExn HTTPError
             (Str.of_nat code ++ " Server Error for url: " ++ url))
  else Return tt.

(** [response.headers.get("Content-Type", "")] *)
Definition content_type_of (r : response) : string :=
  match content_type_header r with Some v => v | None => "" end.

Definition response_content (r : response) : result (list byte) :=
  match content r with
  | inr body => Return body
  | inl message => Raise (mkExn RequestException message)
  end.

(** [open(existing_file, "rb")] and [f.read()]. *)
Definition read_file (name : string) (data : list byte) (readable : bool)
  : result (list byte) :=
  if readable then Return data
  else Raise (mkExn OSError ("Permission denied: " ++ name)).

(** The loop over [iterdir()]: [true] when it returns on a duplicate. *)
Fixpoint duplicate_scan (file_hash : string) (d : listing) : result bool :=
  match d with
  | [] => Return false
  | (name, File data readable) :: rest =>
      existing <- read_file name data readable ;;
      if String.eqb file_hash (MD5.hexdigest existing) then Return true
      else duplicate_scan file_hash rest
  | (_, Directory) :: rest => duplicate_scan file_hash rest
  end.

(** [with open(filepath, 'wb') as f: f.write(data)]. *)
Definition write_file (w : world) (d : listing) (filename : string)
  (data : list byte) : result unit * listing :=
  match lookup filename d with
  | Some Directory =>
      (Raise (mkExn OSError ("Is a directory: " ++ filename)), d)
  | _ =>
      match disk w filename data with
      | Written => (Return tt, put filename (File data true) d)
      | OpenFailed message => (Raise (mkExn OSError message), d)
      | WriteFailed kept message =>
          (Raise (mkExn OSError message),
           put filename (File (firstn kept data) true) d)
      end
  end.

(** The body of the [try] statement once the directory exists. *)
Definition fetch_in_directory (w : world) (url : string) (d : listing)
  : result outcome * listing :=
  match requests_get w url with
  | Raise e => (Raise e, d)
  | Return r =>
  match raise_for_status url r with
  | Raise e => (Raise e, d)
  | Return _ =>
  let content_type := content_type_of r in
  if negb (Str.startswith "image/" content_type) then
    (Return (SkippedNotImage url content_type), d)
  else
  match get_filename_from_url url with
  | Raise e => (Raise e, d)
  | Return filename =>
  let filename := safe_filename d filename in
  match response_content r with
  | Raise e => (Raise e, d)
  | Return body =>
  let file_hash := MD5.hexdigest body in
  match duplicate_scan file_hash d with
  | Raise e => (Raise e, d)
  | Return true => (Return (SkippedDuplicate filename), d)
  | Return false =>
  match write_file w d filename body with
  | (Raise e, d') => (Raise e, d')
  | (Return _, d') => (Return (Saved filename), d')
  end end end end end end.

Definition fetch_image_try (w : world) (url : string) (s : dir_state)
  : result outcome * dir_state :=
  match makedirs w s with
  | Raise e => (Raise e, s)
  | Return d =>
      let (r, d') := fetch_in_directory w url d in (r, Some d')
  end.

(** The two [except] clauses, tried in order; an exception neither of them
    matches leaves [fetch_image]. *)
Definition fetch_image_except (url : string) (e : exn) : result outcome :=
  if issubclass (exn_type e) RequestException then
    Return (Failed ("Connection error for " ++ url ++ ": " ++ exn_text e))
  else if issubclass (exn_type e) Exception then
    Return (Failed ("An unexpected error occurred: " ++ exn_text e))
  else Raise e.

Definition fetch_image (w : world) (url : string) (s : dir_state)
  : result outcome * dir_state :=
  match fetch_image_try w url s with
  | (Return o, s') => (Return o, s')
  | (Raise e, s') => (fetch_image_except url e, s')
  end.

(** [urls = input(...).split(","); urls = [u.strip() for u in urls if
    u.strip()]] *)
Definition read_urls (line : string) : list string :=
  map Str.strip
      (filter (fun u => Str.nonempty (Str.strip u)) (Str.split "," line)).

(** [for url in urls: fetch_image(url)]; an exception leaving
    [fetch_image] would end the loop. *)
Fixpoint fetch_each (w : world) (urls : list string) (s : dir_state)
  : result (list outcome) * dir_state :=
  match urls with
  | [] => (Return [], s)
  | url :: rest =>
      match fetch_image w url s with
      | (Raise e, s') => (Raise e, s')
      | (Return o, s') =>
          match fetch_each w rest s' with
          | (Raise e, s'') => (Raise e, s'')
          | (Return os, s'') => (Return (o :: os), s'')
          end
      end
  end.

Definition main (w : world) (line : string) (s : dir_state)
  : result (list outcome) * dir_state :=
  fetch_each w (read_urls line) s.

End Program.

(** ** Notions the properties are stated with *)



(** A duplicate check that skips the files it cannot read, the policy the
    specification words for the detector; [duplicate_scan] is the one of
    the program. *)
Fixpoint duplicate_scan_skipping (file_hash : string) (d : listing) : bool :=
  match d with
  | [] => false
  | (_, File data true) :: rest =>
      String.eqb file_hash (MD5.hexdigest data)
      || duplicate_scan_skipping file_hash rest
  | _ :: rest => duplicate_scan_skipping file_hash rest
  end.

(** An exception the [except] clauses of [fetch_image] catch. *)
Definition caught (e : exn) : Prop := issubclass (exn_type e) Exception = true.


(** ** Worlds and directories to run the program in *)

Module Scenario.

(** No URL below has a bracketed host; any test of them will do. *)
Definition any_host (_ : string) : bool := true.

Definition pic_url : string := "http://example.com/pic.png".

Definition B : list byte := ["P"; "N"; "G"]%byte.

Definition image_response : response :=
  mkResponse 200 (Some "image/png") (inr B).

Definition html_response (status : nat) : response :=
  mkResponse status (Some "text/html") (inr ["<"; "p"; ">"]%byte).


Definition serving (r : response) (fate : write_result) : world :=
  mkWorld (fun _ => inr r) None (fun _ _ => fate).

Definition healthy : world := serving image_response Written.



Definition old_dir : listing := [("old.png", File ["o"]%byte true)].

Definition locked_dir : listing :=
  [("locked.png", File [] false); ("copy.png", File B true)].


End Scenario.

(** ** Further notions *)

(** The first character of a text, if any. *)
Definition first_char (s : string) : option ascii :=
  match s with String a _ => Some a | EmptyString => None end.

(** The last character of a text, if any. *)
Fixpoint last_char (s : string) : option ascii :=
  match s with
  | EmptyString => None
  | String a EmptyString => Some a
  | String _ s' => last_char s'
  end.

(** A line of nothing but commas and white space. *)
Fixpoint only_separators (line : string) : bool :=
  match line with
  | EmptyString => true
  | String a line' =>
      (Str.isspace a || Ascii.eqb a ",") && only_separators line'
  end.

(** The outcomes of two runs of the loop, one after the other. *)
Definition then_outcomes (r1 r2 : result (list outcome))
  : result (list outcome) :=
  os1 <- r1 ;; os2 <- r2 ;; Return (os1 ++ os2)%list.

(** More worlds: no network, and a server with two images. *)
Module Scenario2.

Import Scenario.

Definition offline : world :=
  mkWorld (fun _ => inl "Connection timed out") None (fun _ _ => Written).

Definition B2 : list byte := ["J"; "P"; "G"]%byte.

Definition first_url : string := "http://a.example/pic.png".
Definition second_url : string := "http://b.example/img/pic.png".

Definition two_images : world :=
  mkWorld (fun url =>
             if String.eqb url first_url then inr image_response
             else inr (mkResponse 200 (Some "image/jpeg") (inr B2)))
          None (fun _ _ => Written).

End Scenario2.

(** ** The existence test as an operation that can fail *)

(** The length of a name in bytes as the file system gets it
    ([os.fsencode], UTF-8): a code point from 128 on takes two bytes. *)
Fixpoint utf8_length (s : string) : nat :=
  match s with
  | EmptyString => 0
  | String a s' =>
      (if (nat_of_ascii a <? 128)%nat then 1 else 2) + utf8_length s'
  end.

(** [safe_filename] and [fetch_image] with [Path.exists] written out as
    what it is in [pathlib]: a call of [os.stat] that answers, or raises
    the [OSError] of a path the file system refuses (errno 36 for a name
    of more bytes than [NAME_MAX], errno 13 below a directory that may not
    be searched).  Where no test raises, these are the functions above. *)
Module Checked.

Section Names.

(** [(Path(directory) / f).exists()] for the directory probed, whatever
    its layout. *)
Variable path_exists : string -> result bool.

(** The [while True] loop of [safe_filename], run for at most [fuel]
    rounds; [None] when the fuel is used up. *)
Fixpoint probe (fuel : nat) (name ext : string) (counter : nat)
  : option (result string) :=
  match fuel with
  | O => None
  | S fuel' =>
      let new_filename := candidate name ext counter in
      match path_exists new_filename with
      | Raise e => Some (Raise e)
      | Return false => Some (Return new_filename)
      | Return true => probe fuel' name ext (S counter)
      end
  end.

Definition safe_filename_within (fuel : nat) (filename : string)
  : option (result string) :=
  match path_exists filename with
  | Raise e => Some (Raise e)
  | Return true =>
      let (name, ext) := Str.splitext filename in
      probe fuel name ext 1
  | Return false => Some (Return filename)
  end.

End Names.

Section Listing.

(** [NAME_MAX] of the file system the directory is on (255 on ext4, xfs,
    btrfs and tmpfs). *)
Variable name_max : nat.

(** The test for a name without slash, an entry of the directory: the
    file system refuses a name of more than [name_max] bytes. *)
Definition exists_ (d : listing) (name : string) : result bool :=
  if (name_max <? utf8_length name)%nat
  then Raise (mkExn OSError ("File name too long: " ++ name))
  else Return (FS.exists_ d name).

(** More rounds than there are entries are never needed
    ([checked_safe_filename_within_enough]), so the last branch is never
    taken. *)
Definition safe_filename (d : listing) (filename : string) : result string :=
  match safe_filename_within (exists_ d) (S (List.length d)) filename with
  | Some r => r
  | None => Return filename
  end.

Variable bracketed_host_ok : string -> bool.

(** The body of the [try] statement once the directory exists. *)
Definition fetch_in_directory (w : world) (url : string) (d : listing)
  : result outcome * listing :=
  match requests_get w url with
  | Raise e => (Raise e, d)
  | Return r =>
  match raise_for_status url r with
  | Raise e => (Raise e, d)
  | Return _ =>
  let content_type := content_type_of r in
  if negb (Str.startswith "image/" content_type) then
    (Return (SkippedNotImage url content_type), d)
  else
  match get_filename_from_url bracketed_host_ok url with
  | Raise e => (Raise e, d)
  | Return filename =>
  match safe_filename d filename with
  | Raise e => (Raise e, d)
  | Return filename =>
  match response_content r with
  | Raise e => (Raise e, d)
  | Return body =>
  let file_hash := MD5.hexdigest body in
  match duplicate_scan file_hash d with
  | Raise e => (Raise e, d)
  | Return true => (Return (SkippedDuplicate filename), d)
  | Return false =>
  match write_file w d filename body with
  | (Raise e, d') => (Raise e, d')
  | (Return _, d') => (Return (Saved filename), d')
  end end end end end end end.

Definition fetch_image_try (w : world) (url : string) (s : dir_state)
  : result outcome * dir_state :=
  match makedirs w s with
  | Raise e => (Raise e, s)
  | Return d =>
      let (r, d') := fetch_in_directory w url d in (r, Some d')
  end.

Definition fetch_image (w : world) (url : string) (s : dir_state)
  : result outcome * dir_state :=
  match fetch_image_try w url s with
  | (Return o, s') => (Return o, s')
  | (Raise e, s') => (fetch_image_except url e, s')
  end.

Fixpoint fetch_each (w : world) (urls : list string) (s : dir_state)
  : result (list outcome) * dir_state :=
  match urls with
  | [] => (Return [], s)
  | url :: rest =>
      match fetch_image w url s with
      | (Raise e, s') => (Raise e, s')
      | (Return o, s') =>
          match fetch_each w rest s' with
          | (Raise e, s'') => (Raise e, s'')
          | (Return os, s'') => (Return (o :: os), s'')
          end
      end
  end.

Definition main (w : world) (line : string) (s : dir_state)
  : result (list outcome) * dir_state :=
  fetch_each w (read_urls line) s.

End Listing.

End Checked.

(** File names at the limit of 255 bytes. *)
Module Scenario3.

Definition letters (n : nat) : string :=
  string_of_list_ascii (List.repeat "a"%char n).

(** 254 bytes: one more character is allowed, two are not. *)
Definition long_name : string := letters 250 ++ ".png".

Definition long_url : string := "http://example.com/" ++ long_name.

Definition long_dir : listing := [(long_name, File Scenario.B true)].

(** 255 bytes, the longest name allowed, and 256 bytes. *)
Definition longest_name : string := letters 251 ++ ".png".

Definition longest_dir : listing := [(longest_name, File Scenario.B true)].

Definition too_long_name : string := letters 252 ++ ".png".

End Scenario3.

(** * Properties *)

(** ** The library routines on known values *)

Example md5_empty : MD5.hexdigest [] = "d41d8cd98f00b204e9800998ecf8427e".
Proof. vm_compute. reflexivity. Qed.

Example md5_abc :
  MD5.hexdigest ["a"; "b"; "c"]%byte = "900150983cd24fb0d6963f7d28e17f72".
Proof. vm_compute. reflexivity. Qed.

Example md5_two_blocks :
  MD5.hexdigest (repeat "x"%byte 56) = "668a72d5ba17f08e62dabcafad6db14b".
Proof. vm_compute. reflexivity. Qed.

Example basename_of_file : Str.basename "/img/pic.png" = "pic.png".
Proof. reflexivity. Qed.

Example basename_of_directory : Str.basename "/img/" = "".
Proof. reflexivity. Qed.

Example splitext_last_dot : Str.splitext "a.b.c" = ("a.b", ".c").
Proof. reflexivity. Qed.

Example splitext_leading_dots : Str.splitext "..a" = ("..a", "").
Proof. reflexivity. Qed.

Example split_keeps_empty_pieces :
  Str.split "," "a,b,,c" = ["a"; "b"; ""; "c"].
Proof. reflexivity. Qed.

Example strip_both_ends : Str.strip "  a b " = "a b".
Proof. reflexivity. Qed.

Example urlparse_params :
  UrlParse.urlparse Scenario.any_host "HTTP://x/y.b;c/d.e;f?q#g"
  = Return (UrlParse.mkParseResult "http" "x" "/y.b;c/d.e" "f" "q" "g").
Proof. vm_compute. reflexivity. Qed.

Example safe_filename_second_collision :
  safe_filename [("pic.png", Directory); ("pic_1.png", File [] true)] "pic.png"
  = "pic_2.png".
Proof. vm_compute. reflexivity. Qed.

Example main_two_urls :
  main Scenario.any_host Scenario.healthy
       " http://a/b.png , ,http://c/d.png" None
  = (Return [Saved "b.png"; SkippedDuplicate "d.png"],
     Some [("b.png", File Scenario.B true)]).
Proof. vm_compute. reflexivity. Qed.

(** ** Strings *)

Module StrFacts.

Import Str.

Lemma append_nil_r (s : string) : s ++ "" = s.
Proof. induction s as [|a s IH]; simpl; [reflexivity | now rewrite IH]. Qed.

Lemma append_assoc (a b c : string) : (a ++ b) ++ c = a ++ b ++ c.
Proof. induction a as [|x a IH]; simpl; [reflexivity | now rewrite IH]. Qed.

Lemma length_append (a b : string) :
  String.length (a ++ b) = String.length a + String.length b.
Proof. induction a as [|x a IH]; simpl; [reflexivity | now rewrite IH]. Qed.

Lemma append_inv_head (a x y : string) : a ++ x = a ++ y -> x = y.
Proof.
  induction a as [|c a IH]; simpl; intros H; [exact H|].
  injection H as H. now apply IH.
Qed.

Lemma append_inv_tail (c x y : string) : x ++ c = y ++ c -> x = y.
Proof.
  revert y. induction x as [|a x IH]; intros [|b y] H; simpl in H.
  - reflexivity.
  - apply (f_equal String.length) in H. simpl in H.
    rewrite length_append in H. lia.
  - apply (f_equal String.length) in H. simpl in H.
    rewrite length_append in H. lia.
  - injection H as -> H. f_equal. now apply IH.
Qed.

Lemma of_nat_inj (n m : nat) : of_nat n = of_nat m -> n = m.
Proof.
  unfold of_nat. intros H.
  apply Unsigned.to_uint_inj.
  assert (E : Some (Nat.to_uint n) = Some (Nat.to_uint m)).
  { rewrite <- (NilEmpty.usu (Nat.to_uint n)), <- (NilEmpty.usu (Nat.to_uint m)).
    now rewrite H. }
  now injection E.
Qed.

Lemma contains_append (c : ascii) (a b : string) :
  contains c (a ++ b) = contains c a || contains c b.
Proof.
  induction a as [|x a IH]; simpl; [reflexivity|].
  now rewrite IH, orb_assoc.
Qed.

(** [find] and [rfind] answer [-1] exactly when the character is absent. *)
Lemma rfind_range (c : ascii) (s : string) :
  (-1 <= rfind c s < Z.of_nat (String.length s))%Z.
Proof.
  induction s as [|a s IH]; simpl; [lia|].
  destruct (0 <=? rfind c s)%Z eqn:E; [lia|].
  destruct (Ascii.eqb a c); lia.
Qed.

Lemma rfind_contains (c : ascii) (s : string) :
  (0 <=? rfind c s)%Z = contains c s.
Proof.
  induction s as [|a s IH]; simpl; [reflexivity|].
  pose proof (rfind_range c s) as R.
  destruct (0 <=? rfind c s)%Z eqn:E.
  - rewrite <- IH, orb_true_r. apply Z.leb_le. apply Z.leb_le in E. lia.
  - rewrite <- IH, orb_false_r. now destruct (Ascii.eqb a c).
Qed.

Lemma find_range (c : ascii) (s : string) :
  (-1 <= find c s < Z.of_nat (String.length s))%Z.
Proof.
  induction s as [|a s IH]; simpl; [lia|].
  destruct (Ascii.eqb a c); [lia|].
  destruct (find c s <? 0)%Z eqn:E; [lia|].
  apply Z.ltb_ge in E. lia.
Qed.

(** [basename] by cases on the first character. *)
Lemma basename_cons (a : ascii) (p : string) :
  basename (String a p) =
  if contains slash p then basename p
  else if Ascii.eqb a slash then p else String a p.
Proof.
  unfold basename, from. simpl rfind.
  rewrite rfind_contains.
  pose proof (rfind_range slash p) as R.
  destruct (contains slash p) eqn:C.
  - rewrite <- rfind_contains in C. apply Z.leb_le in C.
    replace (Z.to_nat (rfind slash p + 1 + 1))
      with (S (Z.to_nat (rfind slash p + 1))) by lia.
    reflexivity.
  - destruct (Ascii.eqb a slash); reflexivity.
Qed.

Lemma basename_nil : basename "" = "".
Proof. reflexivity. Qed.

(** The base name is the text after the last slash. *)
Lemma basename_last_segment (p : string) :
  exists head,
    p = head ++ basename p /\
    contains slash (basename p) = false /\
    (head = "" \/ exists h, head = h ++ "/").
Proof.
  induction p as [|a p IH].
  - exists "". repeat split; auto.
  - rewrite basename_cons.
    destruct IH as (head & Hp & Hb & Hh).
    destruct (contains slash p) eqn:C.
    + exists (String a head). repeat split.
      * simpl. now rewrite <- Hp.
      * exact Hb.
      * right. destruct Hh as [-> | (h & ->)].
        -- simpl in Hp. rewrite <- Hp in Hb. congruence.
        -- exists (String a h). reflexivity.
    + destruct (Ascii.eqb a slash) eqn:E.
      * apply Ascii.eqb_eq in E. subst a.
        exists "/". repeat split; auto. right. now exists "".
      * exists "". repeat split; auto.
        simpl. now rewrite E, C.
Qed.

(** [split] and [join] are inverse, and no piece holds the separator. *)
Lemma split_nonnil (c : ascii) (s : string) : split c s <> [].
Proof.
  induction s as [|a s IH]; simpl; [discriminate|].
  destruct (Ascii.eqb a c); [discriminate|].
  destruct (split c s); [contradiction | discriminate].
Qed.


Lemma split_pieces (c : ascii) (s p : string) :
  In p (split c s) -> contains c p = false.
Proof.
  revert p. induction s as [|a s IH]; simpl; intros p H.
  - destruct H as [<- | []]. reflexivity.
  - pose proof (split_nonnil c s) as N.
    destruct (Ascii.eqb a c) eqn:E.
    + destruct H as [<- | H]; [reflexivity | now apply IH].
    + destruct (split c s) as [|q qs]; [contradiction|].
      destruct H as [<- | H].
      * simpl. rewrite E. apply IH. now left.
      * apply IH. now right.
Qed.

(** What [strip] removes is white space, and nothing is left to remove. *)
Lemma lstrip_decompose (s : string) :
  exists pre, s = pre ++ lstrip s /\ all_space pre = true.
Proof.
  induction s as [|a s (pre & Hs & Hp)]; simpl.
  - now exists "".
  - destruct (isspace a) eqn:E.
    + exists (String a pre). simpl. rewrite E, Hp. split; [now rewrite <- Hs | reflexivity].
    + now exists "".
Qed.

Lemma rstrip_decompose (s : string) :
  exists post, s = rstrip s ++ post /\ all_space post = true.
Proof.
  induction s as [|a s (post & Hs & Hp)]; simpl.
  - now exists "".
  - destruct (rstrip s) as [|b r] eqn:R.
    + destruct (isspace a) eqn:E.
      * exists (String a post). simpl in *. rewrite E, Hp. split; [now rewrite <- Hs | reflexivity].
      * exists post. simpl in *. split; [now rewrite <- Hs | exact Hp].
    + exists post. split; [|exact Hp]. simpl. simpl in Hs. now rewrite <- Hs.
Qed.

Lemma strip_decompose (s : string) :
  exists pre post,
    s = pre ++ strip s ++ post /\
    all_space pre = true /\ all_space post = true.
Proof.
  destruct (lstrip_decompose s) as (pre & Hs & Hpre).
  destruct (rstrip_decompose (lstrip s)) as (post & Hl & Hpost).
  exists pre, post. unfold strip. now rewrite <- Hl, <- Hs.
Qed.

Lemma lstrip_head (s : string) :
  match lstrip s with
  | String a _ => isspace a = false
  | EmptyString => True
  end.
Proof.
  induction s as [|a s IH]; simpl; [exact I|].
  destruct (isspace a) eqn:E; [exact IH | exact E].
Qed.

Lemma rstrip_idempotent (s : string) : rstrip (rstrip s) = rstrip s.
Proof.
  induction s as [|a s IH]; simpl; [reflexivity|].
  destruct (rstrip s) as [|b r] eqn:R.
  - destruct (isspace a) eqn:E; simpl; [reflexivity | now rewrite E].
  - simpl. simpl in IH. now rewrite IH.
Qed.

Lemma rstrip_head (s : string) (a : ascii) (r : string) :
  rstrip s = String a r -> exists r', s = String a r'.
Proof.
  destruct s as [|b s]; simpl; [discriminate|].
  destruct (rstrip s); [destruct (isspace b)|]; intros H;
    try discriminate; injection H as -> _; eauto.
Qed.

Lemma lstrip_fixed (s : string) :
  match s with String a _ => isspace a = false | EmptyString => True end ->
  lstrip s = s.
Proof. destruct s as [|a s]; simpl; [reflexivity | now intros ->]. Qed.

Lemma strip_idempotent (s : string) : strip (strip s) = strip s.
Proof.
  unfold strip.
  assert (L : lstrip (rstrip (lstrip s)) = rstrip (lstrip s)).
  { apply lstrip_fixed.
    destruct (rstrip (lstrip s)) as [|a r] eqn:R; [exact I|].
    destruct (rstrip_head _ _ _ R) as (r' & E).
    pose proof (lstrip_head s) as H. now rewrite E in H. }
  rewrite L. apply rstrip_idempotent.
Qed.




Lemma of_nat_no_slash (n : nat) : contains slash (of_nat n) = false.
Proof.
  unfold of_nat. induction (Nat.to_uint n) as [|d IH|d IH|d IH|d IH|d IH
                                               |d IH|d IH|d IH|d IH|d IH];
    simpl; auto.
Qed.

End StrFacts.

(** ** The directory *)

Module FSFacts.

Lemma lookup_in (name : string) (d : listing) (e : entry) :
  lookup name d = Some e -> In (name, e) d.
Proof.
  induction d as [|[n e'] d IH]; simpl; [discriminate|].
  destruct (String.eqb_spec n name) as [-> | _]; intros H.
  - injection H as ->. now left.
  - right. now apply IH.
Qed.


Lemma exists_false_lookup (d : listing) (name : string) :
  exists_ d name = false -> lookup name d = None.
Proof.
  unfold exists_. intros H.
  apply orb_false_iff in H as [_ H].
  now destruct (lookup name d).
Qed.

Lemma put_fresh (name : string) (e : entry) (d : listing) :
  lookup name d = None -> put name e d = (d ++ [(name, e)])%list.
Proof.
  induction d as [|[n e'] d IH]; simpl; [reflexivity|].
  destruct (String.eqb n name); [discriminate|].
  intros H. now rewrite IH.
Qed.



End FSFacts.

(** ** [safe_filename] *)

Lemma candidate_inj (name ext : string) (n m : nat) :
  candidate name ext n = candidate name ext m -> n = m.
Proof.
  unfold candidate. intros H.
  apply StrFacts.append_inv_head in H. simpl in H. injection H as H.
  apply StrFacts.append_inv_tail in H.
  now apply StrFacts.of_nat_inj.
Qed.

Lemma candidate_underscore (name ext : string) (n : nat) :
  Str.contains "_" (candidate name ext n) = true.
Proof.
  unfold candidate. rewrite StrFacts.contains_append. simpl.
  apply orb_true_r.
Qed.

(** A candidate that exists is the name of an entry. *)
Lemma candidate_exists_in (d : listing) (name ext : string) (n : nat) :
  exists_ d (candidate name ext n) = true ->
  In (candidate name ext n) (names d).
Proof.
  pose proof (candidate_underscore name ext n) as U.
  unfold exists_. intros H.
  destruct (String.eqb_spec (candidate name ext n) "") as [E|_];
    [rewrite E in U; discriminate|].
  destruct (String.eqb_spec (candidate name ext n) ".") as [E|_];
    [rewrite E in U; discriminate|].
  destruct (String.eqb_spec (candidate name ext n) "..") as [E|_];
    [rewrite E in U; discriminate|].
  simpl in H.
  destruct (lookup (candidate name ext n) d) as [e|] eqn:L; [|discriminate].
  apply FSFacts.lookup_in in L.
  apply (in_map fst) in L. exact L.
Qed.

Section ProbeFacts.

Variable path_exists : string -> bool.

(** The loop answers the first free candidate from [counter] on. *)
Lemma probe_sound (fuel : nat) (name ext : string) :
  forall counter f,
    probe path_exists fuel name ext counter = Some f ->
    exists N,
      counter <= N < counter + fuel /\
      f = candidate name ext N /\
      path_exists f = false /\
      forall M, counter <= M < N ->
                path_exists (candidate name ext M) = true.
Proof.
  induction fuel as [|fuel IH]; simpl; intros counter f H; [discriminate|].
  destruct (path_exists (candidate name ext counter)) eqn:E; simpl in H.
  - destruct (IH _ _ H) as (N & HN & -> & Hfree & Hmin).
    exists N. split; [lia|]. split; [reflexivity|]. split; [exact Hfree|].
    intros M HM. destruct (Nat.eq_dec M counter) as [-> | NE]; [exact E|].
    apply Hmin. lia.
  - injection H as <-. exists counter.
    split; [lia|]. split; [reflexivity|]. split; [exact E|].
    intros M HM. lia.
Qed.

(** A free candidate within reach of the fuel is enough for an answer. *)
Lemma probe_complete (fuel : nat) (name ext : string) :
  forall counter N,
    counter <= N < counter + fuel ->
    path_exists (candidate name ext N) = false ->
    exists f, probe path_exists fuel name ext counter = Some f.
Proof.
  induction fuel as [|fuel IH]; simpl; intros counter N HN Hfree; [lia|].
  destruct (path_exists (candidate name ext counter)) eqn:E; simpl.
  - apply (IH (S counter) N); [|exact Hfree].
    destruct (Nat.eq_dec N counter) as [-> | NE]; [congruence | lia].
  - eauto.
Qed.

(** More fuel does not change an answer. *)
Lemma probe_more_fuel (fuel fuel' : nat) (name ext : string) :
  forall counter f,
    probe path_exists fuel name ext counter = Some f ->
    fuel <= fuel' ->
    probe path_exists fuel' name ext counter = Some f.
Proof.
  revert fuel'. induction fuel as [|fuel IH]; simpl; intros fuel' counter f H L;
    [discriminate|].
  destruct fuel' as [|fuel']; [lia|]. simpl.
  destruct (path_exists (candidate name ext counter)); simpl in *;
    [apply IH; [exact H | lia] | exact H].
Qed.

End ProbeFacts.

Lemma forallb_false_witness {A} (f : A -> bool) (l : list A) :
  forallb f l = false -> exists x, In x l /\ f x = false.
Proof.
  induction l as [|a l IH]; simpl; [discriminate|].
  destruct (f a) eqn:E; simpl; intros H.
  - destruct (IH H) as (x & Hx & Fx). eauto.
  - eauto.
Qed.

(** Pigeonhole: among the first [length d + 1] candidates one is free. *)
Lemma free_candidate (d : listing) (name ext : string) :
  exists N,
    1 <= N <= S (List.length d) /\ exists_ d (candidate name ext N) = false.
Proof.
  set (cands := map (candidate name ext) (seq 1 (S (List.length d)))).
  destruct (forallb (exists_ d) cands) eqn:F.
  - exfalso.
    assert (ND : NoDup cands).
    { apply Injective_map_NoDup; [|apply seq_NoDup].
      intros n m. apply candidate_inj. }
    assert (I : incl cands (names d)).
    { intros c Hc. pose proof Hc as Hc'.
      apply in_map_iff in Hc as (n & <- & _).
      apply candidate_exists_in.
      rewrite forallb_forall in F. now apply F. }
    pose proof (NoDup_incl_length ND I) as L.
    unfold cands, names in L. rewrite !length_map, length_seq in L. lia.
  - apply forallb_false_witness in F as (c & Hc & Fc).
    apply in_map_iff in Hc as (n & <- & Hn).
    apply in_seq in Hn. exists n. split; [lia | exact Fc].
Qed.

Lemma safe_filename_within_enough (d : listing) (filename : string) (fuel : nat) :
  List.length d < fuel ->
  safe_filename_within (exists_ d) fuel filename
  = Some (safe_filename d filename).
Proof.
  intros L. unfold safe_filename, safe_filename_within.
  destruct (exists_ d filename); [|reflexivity].
  destruct (Str.splitext filename) as [name ext].
  destruct (free_candidate d name ext) as (N & HN & Hfree).
  destruct (probe_complete (exists_ d) (S (List.length d)) name ext 1 N)
    as (f & Hf); [lia | exact Hfree |].
  rewrite Hf. apply probe_more_fuel with (fuel := S (List.length d)); [exact Hf | lia].
Qed.

(** The name [safe_filename] answers does not exist. *)
Lemma safe_filename_free (d : listing) (filename : string) :
  exists_ d (safe_filename d filename) = false.
Proof.
  pose proof (safe_filename_within_enough d filename (S (List.length d))
                (Nat.lt_succ_diag_r _)) as E.
  unfold safe_filename_within in E.
  destruct (exists_ d filename) eqn:X.
  - destruct (Str.splitext filename) as [stem ext].
    apply probe_sound in E as (N & _ & _ & F & _). exact F.
  - assert (E' : safe_filename d filename = filename) by congruence.
    rewrite E'. exact X.
Qed.



(** ** The pipeline *)

Section Pipeline.

Variable bracketed_host_ok : string -> bool.

Local Abbreviation urlparse := (UrlParse.urlparse bracketed_host_ok).
Local Abbreviation filename_of := (get_filename_from_url bracketed_host_ok).
Local Abbreviation fetch_dir := (fetch_in_directory bracketed_host_ok).
Local Abbreviation fetch_try := (fetch_image_try bracketed_host_ok).
Local Abbreviation fetch := (fetch_image bracketed_host_ok).

(** *** Which exceptions arise *)

Ltac raised :=
  let H := fresh "H" in intros H; inversion H; subst; clear H.

Lemma check_bracketed_netloc_raises (netloc : string) (e : exn) :
  UrlParse.check_bracketed_netloc bracketed_host_ok netloc = Raise e ->
  exn_type e = ValueError.
Proof.
  unfold UrlParse.check_bracketed_netloc.
  destruct (UrlParse.rpartition "@" netloc) as [[? ?] hp].
  destruct (UrlParse.partition "[" hp) as [[before open] bracketed].
  destruct open.
  - destruct (Str.nonempty before); cbn [Py.bind].
    + raised. reflexivity.
    + destruct (UrlParse.partition "]" bracketed) as [[host ?] port].
      destruct (Str.nonempty port && negb (Str.startswith ":" port)); cbn [Py.bind].
      * raised. reflexivity.
      * destruct (bracketed_host_ok host); [discriminate|].
        raised. reflexivity.
  - destruct (UrlParse.partition ":" hp) as [[host ?] ?]. cbn [Py.bind].
    destruct (bracketed_host_ok host); [discriminate|].
    raised. reflexivity.
Qed.

Lemma urlsplit_raises (url : string) (e : exn) :
  UrlParse.urlsplit bracketed_host_ok url = Raise e -> exn_type e = ValueError.
Proof.
  unfold UrlParse.urlsplit.
  set (u := UrlParse.remove_unsafe (UrlParse.lstrip_c0 url)).
  match goal with
  | |- context [let '(_, _) := ?x in _] => destruct x as [sch rest]
  end.
  destruct (Str.startswith "//" rest).
  - destruct (UrlParse.splitnetloc rest 2) as [netloc rest'].
    destruct (_ || _).
    + simpl. raised. reflexivity.
    + destruct (Str.contains "[" netloc && Str.contains "]" netloc).
      * destruct (UrlParse.check_bracketed_netloc bracketed_host_ok netloc)
          as [[]|e'] eqn:C; cbn [Py.bind].
        -- destruct (UrlParse.partition "#" rest') as [[a ?] ?].
           destruct (UrlParse.partition "?" a) as [[? ?] ?]. discriminate.
        -- raised.
           eapply check_bracketed_netloc_raises; eassumption.
      * cbn [Py.bind].
        destruct (UrlParse.partition "#" rest') as [[a ?] ?].
        destruct (UrlParse.partition "?" a) as [[? ?] ?]. discriminate.
  - cbn [Py.bind].
    destruct (UrlParse.partition "#" rest) as [[a ?] ?].
    destruct (UrlParse.partition "?" a) as [[? ?] ?]. discriminate.
Qed.

Lemma urlparse_raises (url : string) (e : exn) :
  urlparse url = Raise e -> exn_type e = ValueError.
Proof.
  unfold UrlParse.urlparse.
  destruct (UrlParse.urlsplit bracketed_host_ok url)
    as [[[[[sch nl] u] q] f]|e'] eqn:S; cbn [Py.bind].
  - destruct (_ && _); [destruct (UrlParse.splitparams u)|]; discriminate.
  - raised. eapply urlsplit_raises; eassumption.
Qed.

Lemma get_filename_from_url_raises (url : string) (e : exn) :
  filename_of url = Raise e -> exn_type e = ValueError /\ urlparse url = Raise e.
Proof.
  unfold get_filename_from_url.
  destruct (urlparse url) as [p|e'] eqn:P; cbn [Py.bind].
  - destruct (_ || _); discriminate.
  - raised. split; [|reflexivity].
    eapply urlparse_raises; eassumption.
Qed.

Lemma get_filename_from_url_nonempty (url f : string) :
  filename_of url = Return f -> Str.nonempty f = true.
Proof.
  unfold get_filename_from_url.
  destruct (urlparse url) as [p|e'] eqn:P; simpl; [|discriminate].
  destruct (Str.nonempty (Str.basename (UrlParse.path p))) eqn:N;
    cbn [negb orb].
  - destruct (negb _); raised; [reflexivity | exact N].
  - raised. reflexivity.
Qed.

Lemma get_filename_from_url_no_slash (url f : string) :
  filename_of url = Return f -> Str.contains Str.slash f = false.
Proof.
  unfold get_filename_from_url.
  destruct (urlparse url) as [p|e'] eqn:P; simpl; [|discriminate].
  destruct (StrFacts.basename_last_segment (UrlParse.path p)) as (_ & _ & H & _).
  destruct (_ || _); raised; [reflexivity | exact H].
Qed.

(** *** The duplicate scan *)

Lemma duplicate_scan_raises (h : string) (d : listing) (e : exn) :
  duplicate_scan h d = Raise e -> exn_type e = OSError.
Proof.
  induction d as [|[n [data [|]|]] d IH]; simpl; try discriminate; auto.
  - destruct (String.eqb h (MD5.hexdigest data)); [discriminate | exact IH].
  - raised. reflexivity.
Qed.


Lemma duplicate_scan_app (h : string) (d d' : listing) :
  duplicate_scan h d = Return false ->
  duplicate_scan h (d ++ d')%list = duplicate_scan h d'.
Proof.
  induction d as [|[n [data [|]|]] d IH]; simpl; auto; [|discriminate].
  destruct (String.eqb h (MD5.hexdigest data)); [discriminate | exact IH].
Qed.



(** *** What one call can do *)

Lemma raise_for_status_raises (url : string) (r : response) (e : exn) :
  raise_for_status url r = Raise e -> exn_type e = HTTPError.
Proof.
  unfold raise_for_status.
  destruct (_ && _); [raised; reflexivity|].
  destruct (_ && _); [raised; reflexivity | discriminate].
Qed.

Lemma raise_for_status_ok (url : string) (r : response) :
  raise_for_status url r = Return tt <->
  ~ (400 <= status_code r < 600).
Proof.
  unfold raise_for_status.
  destruct ((400 <=? status_code r)%nat && (status_code r <? 500)%nat) eqn:A;
    [|destruct ((500 <=? status_code r)%nat && (status_code r <? 600)%nat) eqn:B].
  - split; [discriminate|]. intros N. exfalso. apply N.
    apply andb_true_iff in A as [A1 A2].
    apply Nat.leb_le in A1. apply Nat.ltb_lt in A2. lia.
  - split; [discriminate|]. intros N. exfalso. apply N.
    apply andb_true_iff in B as [B1 B2].
    apply Nat.leb_le in B1. apply Nat.ltb_lt in B2. lia.
  - split; [intros _ | reflexivity]. intros [L U].
    apply andb_false_iff in A, B.
    rewrite Nat.leb_gt, Nat.ltb_ge in A, B. lia.
Qed.

(** The body of the [try] statement, case by case: an exception the
    handlers catch, leaving the directory as it was or with the remains of
    a write that failed midway; a skip, leaving it as it was; or a new file
    under a name that was free. *)
Lemma fetch_in_directory_cases (w : world) (url : string) (d : listing) :
  let (r, d') := fetch_dir w url d in
  match r with
  | Raise e =>
      caught e /\
      (d' = d \/
       exists f body kept message,
         disk w f body = WriteFailed kept message /\
         lookup f d = None /\
         d' = (d ++ [(f, File (firstn kept body) true)])%list)
  | Return (SkippedNotImage u _) => d' = d /\ u = url
  | Return (SkippedDuplicate _) => d' = d
  | Return (Failed _) => False
  | Return (Saved f) =>
      exists resp fname body,
        http_get w url = inr resp /\
        raise_for_status url resp = Return tt /\
        Str.startswith "image/" (content_type_of resp) = true /\
        filename_of url = Return fname /\
        f = safe_filename d fname /\
        content resp = inr body /\
        duplicate_scan (MD5.hexdigest body) d = Return false /\
        disk w f body = Written /\
        lookup f d = None /\
        d' = (d ++ [(f, File body true)])%list
  end.
Proof.
  unfold fetch_in_directory, requests_get.
  destruct (http_get w url) as [m|resp] eqn:G.
  { split; [reflexivity | now left]. }
  destruct (raise_for_status url resp) as [[]|e] eqn:RS.
  2:{ split; [|now left].
      apply raise_for_status_raises in RS. unfold caught. now rewrite RS. }
  destruct (Str.startswith "image/" (content_type_of resp)) eqn:CT;
    cbn [negb]; [|now split].
  destruct (filename_of url) as [fname|e] eqn:FN.
  2:{ split; [|now left].
      apply get_filename_from_url_raises in FN as [FN _].
      unfold caught. now rewrite FN. }
  unfold response_content.
  destruct (content resp) as [m|body] eqn:C.
  { split; [reflexivity | now left]. }
  destruct (duplicate_scan (MD5.hexdigest body) d) as [[|]|e] eqn:DS.
  { reflexivity. }
  2:{ split; [|now left].
      apply duplicate_scan_raises in DS. unfold caught. now rewrite DS. }
  pose proof (FSFacts.exists_false_lookup _ _ (safe_filename_free d fname)) as L.
  unfold write_file. rewrite L.
  destruct (disk w (safe_filename d fname) body) as [|m|kept m] eqn:W.
  - rewrite (FSFacts.put_fresh _ _ _ L).
    exists resp, fname, body. repeat (split; [first [reflexivity | assumption]|]).
    reflexivity.
  - split; [reflexivity | now left].
  - split; [reflexivity | right].
    rewrite (FSFacts.put_fresh _ _ _ L).
    exists (safe_filename d fname), body, kept, m. auto.
Qed.

Lemma makedirs_cases (w : world) (s : dir_state) :
  match makedirs w s with
  | Return d => entries s = d /\ (s = Some d \/ s = None /\ mkdir_error w = None)
  | Raise e => caught e /\ s = None /\ mkdir_error w = Some (exn_text e)
  end.
Proof.
  unfold makedirs. destruct s as [d|]; [simpl; auto|].
  destruct (mkdir_error w) as [m|]; simpl; auto.
  split; [reflexivity | auto].
Qed.

Lemma makedirs_existing (w : world) (d : listing) :
  makedirs w (Some d) = Return d.
Proof. reflexivity. Qed.

(** An exception raised inside the [try] statement is one the handlers
    catch. *)
Lemma fetch_image_try_caught (w : world) (url : string) (s s' : dir_state)
  (e : exn) :
  fetch_try w url s = (Raise e, s') -> caught e.
Proof.
  unfold fetch_image_try.
  pose proof (makedirs_cases w s) as M.
  destruct (makedirs w s) as [d|e'].
  - pose proof (fetch_in_directory_cases w url d) as C.
    destruct (fetch_dir w url d) as [r d'].
    intros H. inversion H; subst. now destruct C.
  - intros H. inversion H; subst. now destruct M.
Qed.

Lemma fetch_image_except_caught (url : string) (e : exn) :
  caught e ->
  exists message,
    fetch_image_except url e = Return (Failed message) /\
    Str.nonempty message = true /\
    (message = "Connection error for " ++ url ++ ": " ++ exn_text e \/
     message = "An unexpected error occurred: " ++ exn_text e).
Proof.
  unfold caught, fetch_image_except. intros ->.
  destruct (issubclass (exn_type e) RequestException);
    eexists; (split; [reflexivity|]); split; auto.
Qed.



Lemma fetch_image_of_try (w : world) (url : string) (s s' : dir_state)
  (o : outcome) :
  fetch_try w url s = (Return o, s') -> fetch w url s = (Return o, s').
Proof. unfold fetch_image. now intros ->. Qed.

Lemma fetch_image_of_raise (w : world) (url : string) (s s' : dir_state)
  (e : exn) :
  fetch_try w url s = (Raise e, s') ->
  fetch w url s = (fetch_image_except url e, s').
Proof. unfold fetch_image. now intros ->. Qed.

(** A call that reported [Saved]: what the world and the directory were. *)
Lemma fetch_image_saved_inv (w : world) (url : string) (s s1 : dir_state)
  (f : string) :
  fetch w url s = (Return (Saved f), s1) ->
  exists d resp fname body,
    makedirs w s = Return d /\
    http_get w url = inr resp /\
    raise_for_status url resp = Return tt /\
    Str.startswith "image/" (content_type_of resp) = true /\
    filename_of url = Return fname /\
    f = safe_filename d fname /\
    content resp = inr body /\
    duplicate_scan (MD5.hexdigest body) d = Return false /\
    disk w f body = Written /\
    lookup f d = None /\
    s1 = Some (d ++ [(f, File body true)])%list.
Proof.
  unfold fetch_image.
  destruct (fetch_try w url s) as [[o|e] s'] eqn:T.
  - intros H. inversion H; subst. clear H.
    unfold fetch_image_try in T.
    destruct (makedirs w s) as [d|e] eqn:M; [|discriminate].
    pose proof (fetch_in_directory_cases w url d) as C.
    destruct (fetch_dir w url d) as [r d'].
    inversion T; subst. clear T.
    destruct C as (resp & fname & body & C).
    exists d, resp, fname, body.
    split; [reflexivity|]. decompose [and] C. subst d'.
    repeat (split; [assumption|]). reflexivity.
  - pose proof (fetch_image_try_caught _ _ _ _ _ T) as K.
    destruct (fetch_image_except_caught url e K) as (m & -> & _).
    discriminate.
Qed.

(** The same call run forwards. *)
Lemma fetch_image_saved_intro (w : world) (url : string) (s : dir_state)
  (d : listing) (resp : response) (fname : string) (body : list byte) :
  makedirs w s = Return d ->
  http_get w url = inr resp ->
  raise_for_status url resp = Return tt ->
  Str.startswith "image/" (content_type_of resp) = true ->
  filename_of url = Return fname ->
  content resp = inr body ->
  duplicate_scan (MD5.hexdigest body) d = Return false ->
  disk w (safe_filename d fname) body = Written ->
  fetch w url s
  = (Return (Saved (safe_filename d fname)),
     Some (d ++ [(safe_filename d fname, File body true)])%list).
Proof.
  intros M G RS CT FN C DS W.
  apply fetch_image_of_try.
  unfold fetch_image_try. rewrite M.
  unfold fetch_in_directory, requests_get, response_content, write_file.
  rewrite G, RS, CT, FN, C, DS. cbn [negb].
  pose proof (FSFacts.exists_false_lookup _ _ (safe_filename_free d fname)) as L.
  rewrite L, W, (FSFacts.put_fresh _ _ _ L). reflexivity.
Qed.


Lemma lookup_snoc_fresh (f : string) (e : entry) (d : listing) :
  lookup f d = None -> lookup f (d ++ [(f, e)])%list = Some e.
Proof.
  induction d as [|[n e'] d IH]; simpl.
  - now rewrite String.eqb_refl.
  - destruct (String.eqb n f); [discriminate | exact IH].
Qed.


Lemma fetch_image_http_error (w : world) (url : string) (s : dir_state)
  (d : listing) (resp : response) :
  makedirs w s = Return d ->
  http_get w url = inr resp ->
  400 <= status_code resp < 600 ->
  exists detail,
    fetch w url s
    = (Return (Failed ("Connection error for " ++ url ++ ": " ++ detail)),
       Some d).
Proof.
  intros M G ST. unfold fetch_image, fetch_image_try. rewrite M.
  unfold fetch_in_directory, requests_get. rewrite G.
  destruct (raise_for_status url resp) as [[]|e] eqn:RS.
  - apply raise_for_status_ok in RS. contradiction.
  - pose proof (raise_for_status_raises _ _ _ RS) as K.
    exists (exn_text e). unfold fetch_image_except. rewrite K. reflexivity.
Qed.

(** *** The claims about [fetch_image] *)


(** C3, as amended.  A file that cannot be read, met by the scan before
    any duplicate, ends the duplicate check with an [OSError]: the files
    after it are not looked at, the error is caught at the boundary of
    [fetch_image], which reports [Failed], and nothing is written. *)
Theorem unreadable_file_fails_fetch (w : world) (url : string)
  (s : dir_state) (before after : listing) (name : string)
  (data : list byte) (resp : response) (fname : string) (B : list byte) :
  makedirs w s = Return (before ++ (name, File data false) :: after)%list ->
  http_get w url = inr resp ->
  raise_for_status url resp = Return tt ->
  Str.startswith "image/" (content_type_of resp) = true ->
  filename_of url = Return fname ->
  content resp = inr B ->
  duplicate_scan (MD5.hexdigest B) before = Return false ->
  duplicate_scan (MD5.hexdigest B)
                 (before ++ (name, File data false) :: after)%list
  = Raise (mkExn OSError ("Permission denied: " ++ name)) /\
  fetch w url s
  = (Return (Failed ("An unexpected error occurred: Permission denied: "
                       ++ name)),
     Some (before ++ (name, File data false) :: after)%list).
Proof.
  intros M G RS CT FN C DS.
  assert (E : duplicate_scan (MD5.hexdigest B)
                (before ++ (name, File data false) :: after)%list
              = Raise (mkExn OSError ("Permission denied: " ++ name))).
  { rewrite (duplicate_scan_app _ _ _ DS). reflexivity. }
  split; [exact E|].
  rewrite (fetch_image_of_raise w url s
             (Some (before ++ (name, File data false) :: after)%list)
             (mkExn OSError ("Permission denied: " ++ name))).
  - reflexivity.
  - unfold fetch_image_try. rewrite M.
    unfold fetch_in_directory, requests_get, response_content.
    rewrite G, RS, CT, FN, C, E. reflexivity.
Qed.


(** Where the existence tests of the second call answer: a call that
    reported [Saved], repeated with the same URL in the same world,
    reports [SkippedDuplicate] and leaves the directory as the first call
    left it; from an empty directory it then holds exactly one entry. *)
Lemma second_fetch_is_duplicate (w : world) (url : string)
  (s s1 : dir_state) (f : string) :
  fetch w url s = (Return (Saved f), s1) ->
  (exists f', fetch w url s1 = (Return (SkippedDuplicate f'), s1)) /\
  (entries s = [] -> List.length (entries s1) = 1).
Proof.
  intros F.
  apply fetch_image_saved_inv in F
    as (d & resp & fname & body & M & G & RS & CT & FN & -> & C & DS & W & L & ->).
  split.
  - exists (safe_filename (d ++ [(safe_filename d fname, File body true)])%list fname).
    apply fetch_image_of_try.
    unfold fetch_image_try. rewrite makedirs_existing.
    unfold fetch_in_directory, requests_get, response_content.
    rewrite G, RS, CT, FN, C. cbn [negb].
    rewrite (duplicate_scan_app _ _ _ DS). simpl.
    now rewrite String.eqb_refl.
  - intros E. pose proof (makedirs_cases w s) as MC. rewrite M in MC.
    destruct MC as [<- _]. rewrite E. reflexivity.
Qed.


(** C7, as amended.  For a response whose Content-Type does not begin with
    [image/] (a missing header reads as the empty string) no call of
    [fetch_image] writes anything: the entries of the directory are those
    it had.  The report is [SkippedNotImage] when the directory exists or
    could be created and the status is not one from 400 to 599; it is
    [Failed] otherwise. *)
Theorem non_image_is_skipped (w : world) (url : string) (s : dir_state)
  (resp : response) :
  http_get w url = inr resp ->
  Str.startswith "image/" (content_type_of resp) = false ->
  entries (snd (fetch w url s)) = entries s /\
  (forall d,
      makedirs w s = Return d -> ~ (400 <= status_code resp < 600) ->
      fetch w url s
      = (Return (SkippedNotImage url (content_type_of resp)), Some d)) /\
  (forall d,
      makedirs w s = Return d -> 400 <= status_code resp < 600 ->
      exists message,
        fetch w url s = (Return (Failed message), Some d)) /\
  (forall e,
      makedirs w s = Raise e ->
      exists message, fetch w url s = (Return (Failed message), s)).
Proof.
  intros G CT.
  assert (SK : forall d,
             makedirs w s = Return d -> ~ (400 <= status_code resp < 600) ->
             fetch w url s
             = (Return (SkippedNotImage url (content_type_of resp)), Some d)).
  { intros d M ST. apply fetch_image_of_try.
    unfold fetch_image_try. rewrite M.
    unfold fetch_in_directory, requests_get. rewrite G.
    rewrite (proj2 (raise_for_status_ok url resp) ST), CT. reflexivity. }
  assert (FS : forall d,
             makedirs w s = Return d -> 400 <= status_code resp < 600 ->
             exists message,
               fetch w url s = (Return (Failed message), Some d)).
  { intros d M ST.
    destruct (fetch_image_http_error w url s d resp M G ST) as (detail & ->).
    eauto. }
  assert (FM : forall e,
             makedirs w s = Raise e ->
             exists message, fetch w url s = (Return (Failed message), s)).
  { intros e M. unfold fetch_image, fetch_image_try. rewrite M.
    pose proof (makedirs_cases w s) as MC. rewrite M in MC.
    destruct MC as (K & _).
    destruct (fetch_image_except_caught url e K) as (m & -> & _). eauto. }
  split; [|auto].
  pose proof (makedirs_cases w s) as MC.
  destruct (makedirs w s) as [d|e] eqn:M.
  - destruct MC as [<- _].
    destruct (le_lt_dec 400 (status_code resp)) as [L|L];
      [destruct (le_lt_dec 600 (status_code resp)) as [U|U]|].
    + rewrite (SK _ eq_refl); [reflexivity | lia].
    + destruct (FS _ eq_refl) as (m & ->); [lia | reflexivity].
    + rewrite (SK _ eq_refl); [reflexivity | lia].
  - destruct (FM e eq_refl) as (m & ->). reflexivity.
Qed.

(** *** [get_filename_from_url] *)

(** C8, as amended.  [get_filename_from_url] fails exactly when [urlparse]
    rejects the URL, with its [ValueError].  Otherwise it returns the last
    segment of the parsed path, the text after its last slash, unless that
    segment is empty or has no dot, where it returns
    [downloaded_image.jpg]; what it returns is never empty. *)
Theorem get_filename_from_url_last_segment (url : string) :
  match urlparse url with
  | Raise e => filename_of url = Raise e /\ exn_type e = ValueError
  | Return parsed =>
      let segment := Str.basename (UrlParse.path parsed) in
      filename_of url
      = Return (if negb (Str.nonempty segment)
                   || negb (Str.contains Str.dot segment)
                then "downloaded_image.jpg" else segment) /\
      (exists head,
          UrlParse.path parsed = head ++ segment /\
          Str.contains Str.slash segment = false /\
          (head = "" \/ exists h, head = h ++ "/")) /\
      (forall f, filename_of url = Return f -> Str.nonempty f = true)
  end.
Proof.
  destruct (urlparse url) as [parsed|e] eqn:P.
  - cbv zeta. split; [|split].
    + unfold get_filename_from_url. rewrite P. cbn [Py.bind].
      now destruct (_ || _).
    + apply StrFacts.basename_last_segment.
    + intros f. apply get_filename_from_url_nonempty.
  - split.
    + unfold get_filename_from_url. now rewrite P.
    + eapply urlparse_raises; eassumption.
Qed.

(** *** The driver *)




End Pipeline.

(** ** The claims at work *)

Module Runs.

Import Scenario.



Lemma unreadable_file_fails_fetch_witness :
  duplicate_scan (MD5.hexdigest B) ([] ++ ("locked.png", File [] false) :: [("copy.png", File B true)])%list
  = Raise (mkExn OSError ("Permission denied: " ++ "locked.png")) /\
  fetch_image any_host healthy pic_url (Some locked_dir)
  = (Return (Failed ("An unexpected error occurred: Permission denied: "
                       ++ "locked.png")),
     Some ([] ++ ("locked.png", File [] false) :: [("copy.png", File B true)])%list).
Proof.
  apply (unreadable_file_fails_fetch any_host healthy pic_url (Some locked_dir)
           [] [("copy.png", File B true)] "locked.png" []
           image_response "pic.png" B); reflexivity.
Defined.

(** C3 as it was stated: a detector that skips the unreadable file finds
    the copy behind it; the scan of the program stops at the unreadable
    file and the fetch fails. *)
Lemma unreadable_file_is_not_skipped :
  duplicate_scan_skipping (MD5.hexdigest B) locked_dir = true /\
  duplicate_scan (MD5.hexdigest B) locked_dir
  = Raise (mkExn OSError "Permission denied: locked.png") /\
  fetch_image any_host healthy pic_url (Some locked_dir)
  = (Return (Failed
       "An unexpected error occurred: Permission denied: locked.png"),
     Some locked_dir).
Proof. repeat split; vm_compute; reflexivity. Qed.




Lemma non_image_is_skipped_witness :
  entries (snd (fetch_image any_host (serving (html_response 200) Written)
                  pic_url (Some old_dir)))
  = entries (Some old_dir) /\
  (forall d,
      makedirs (serving (html_response 200) Written) (Some old_dir) = Return d ->
      ~ (400 <= status_code (html_response 200) < 600) ->
      fetch_image any_host (serving (html_response 200) Written) pic_url
                  (Some old_dir)
      = (Return (SkippedNotImage pic_url (content_type_of (html_response 200))),
         Some d)) /\
  (forall d,
      makedirs (serving (html_response 200) Written) (Some old_dir) = Return d ->
      400 <= status_code (html_response 200) < 600 ->
      exists message,
        fetch_image any_host (serving (html_response 200) Written) pic_url
                    (Some old_dir)
        = (Return (Failed message), Some d)) /\
  (forall e,
      makedirs (serving (html_response 200) Written) (Some old_dir) = Raise e ->
      exists message,
        fetch_image any_host (serving (html_response 200) Written) pic_url
                    (Some old_dir)
        = (Return (Failed message), Some old_dir)).
Proof.
  apply (non_image_is_skipped any_host (serving (html_response 200) Written)
           pic_url (Some old_dir) (html_response 200)); reflexivity.
Defined.

(** C7 as it was stated: an error page is no image either, yet the report
    is [Failed], from [raise_for_status]. *)
Lemma error_page_is_failed :
  Str.startswith "image/" (content_type_of (html_response 404)) = false /\
  fetch_image any_host (serving (html_response 404) Written) pic_url (Some [])
  = (Return (Failed
       "Connection error for http://example.com/pic.png: 404 Client Error for url: http://example.com/pic.png"),
     Some []).
Proof. split; vm_compute; reflexivity. Qed.

(** C8 as it was stated: [urlparse] rejects a host with an unmatched
    bracket, and so does [get_filename_from_url]. *)
Lemma unmatched_bracket_raises :
  get_filename_from_url any_host "http://["
  = Raise (mkExn ValueError "Invalid IPv6 URL").
Proof. vm_compute. reflexivity. Qed.

End Runs.

(** * Further properties *)

(** ** More on strings *)

Module StrMore.

Import Str.

Lemma basename_trailing_slash (h : string) : basename (h ++ "/") = "".
Proof.
  induction h as [|a h IH]; [reflexivity|].
  simpl append. rewrite StrFacts.basename_cons.
  rewrite StrFacts.contains_append. simpl. now rewrite orb_true_r.
Qed.

Lemma strip_keeps_absent (c : ascii) (s : string) :
  contains c s = false -> contains c (strip s) = false.
Proof.
  destruct (StrFacts.strip_decompose s) as (pre & post & E & _ & _).
  intros H. rewrite E in H.
  rewrite !StrFacts.contains_append in H.
  apply orb_false_iff in H as [_ H]. now apply orb_false_iff in H as [H _].
Qed.

Lemma lstrip_all_space (s : string) : all_space s = true -> lstrip s = "".
Proof.
  induction s as [|a s IH]; simpl; [reflexivity|].
  intros H. apply andb_true_iff in H as [-> H]. now apply IH.
Qed.

Lemma strip_all_space (s : string) : all_space s = true -> strip s = "".
Proof. intros H. unfold strip. now rewrite lstrip_all_space. Qed.

Lemma rstrip_last (s : string) :
  match last_char (rstrip s) with
  | Some a => isspace a = false
  | None => True
  end.
Proof.
  induction s as [|a s IH]; simpl; [exact I|].
  destruct (rstrip s) as [|b r] eqn:R.
  - destruct (isspace a) eqn:E; simpl; [exact I | exact E].
  - exact IH.
Qed.

Lemma strip_ends (s : string) :
  match first_char (strip s) with
  | Some a => isspace a = false
  | None => True
  end /\
  match last_char (strip s) with
  | Some a => isspace a = false
  | None => True
  end.
Proof.
  split; [|apply rstrip_last].
  unfold strip.
  destruct (rstrip (lstrip s)) as [|a r] eqn:R; [exact I|].
  destruct (StrFacts.rstrip_head _ _ _ R) as (r' & E).
  pose proof (StrFacts.lstrip_head s) as H. rewrite E in H. exact H.
Qed.

(** Splitting a text joined by the separator splits the two parts. *)
Lemma split_app (c : ascii) (a b : string) :
  split c (a ++ String c b) = (split c a ++ split c b)%list.
Proof.
  induction a as [|x a IH]; simpl.
  - now rewrite Ascii.eqb_refl.
  - destruct (Ascii.eqb x c); [now rewrite IH|].
    rewrite IH.
    pose proof (StrFacts.split_nonnil c a) as N.
    destruct (split c a) as [|p ps]; [contradiction | reflexivity].
Qed.

Lemma split_only_separators (line piece : string) :
  only_separators line = true ->
  In piece (split "," line) -> all_space piece = true.
Proof.
  revert piece. induction line as [|a line IH]; simpl; intros piece H I.
  - destruct I as [<- | []]. reflexivity.
  - apply andb_true_iff in H as [Ha H].
    pose proof (StrFacts.split_nonnil "," line) as N.
    destruct (Ascii.eqb a ",") eqn:E.
    + destruct I as [<- | I]; [reflexivity | now apply IH].
    + rewrite orb_false_r in Ha.
      destruct (split "," line) as [|q qs]; [contradiction|].
      destruct I as [<- | I].
      * simpl. rewrite Ha. apply IH; [exact H | now left].
      * apply IH; [exact H | now right].
Qed.

End StrMore.

(** ** More on [get_filename_from_url] and [safe_filename] *)

Lemma probe_ext (pe pe' : string -> bool) (fuel : nat) (name ext : string) :
  (forall n, pe n = pe' n) ->
  forall counter,
    probe pe fuel name ext counter = probe pe' fuel name ext counter.
Proof.
  intros E. induction fuel as [|fuel IH]; simpl; intros counter; [reflexivity|].
  now rewrite E, IH.
Qed.

Lemma safe_filename_unchanged (d : listing) (filename : string) :
  exists_ d filename = false -> safe_filename d filename = filename.
Proof.
  intros H. unfold safe_filename, safe_filename_within. now rewrite H.
Qed.


(** X4.  [safe_filename] is idempotent on a directory: the name it
    returned is returned unchanged when asked again. *)
Theorem safe_filename_idempotent (d : listing) (filename : string) :
  safe_filename d (safe_filename d filename) = safe_filename d filename.
Proof. apply safe_filename_unchanged, safe_filename_free. Qed.

(** ** More on the pipeline *)

Section PipelineMore.

Variable bracketed_host_ok : string -> bool.

Local Abbreviation urlparse := (UrlParse.urlparse bracketed_host_ok).
Local Abbreviation filename_of := (get_filename_from_url bracketed_host_ok).
Local Abbreviation fetch_dir := (fetch_in_directory bracketed_host_ok).
Local Abbreviation fetch_try := (fetch_image_try bracketed_host_ok).
Local Abbreviation fetch := (fetch_image bracketed_host_ok).

Lemma get_filename_from_url_has_dot (url f : string) :
  filename_of url = Return f -> Str.contains Str.dot f = true.
Proof.
  unfold get_filename_from_url.
  destruct (urlparse url) as [p|e'] eqn:P; cbn [Py.bind]; [|discriminate].
  destruct (Str.nonempty (Str.basename (UrlParse.path p))); cbn [negb orb].
  - destruct (Str.contains Str.dot (Str.basename (UrlParse.path p))) eqn:D;
      cbn [negb]; intros H; inversion H; subst; [exact D | reflexivity].
  - intros H. inversion H; subst. reflexivity.
Qed.

(** X1.  Whatever [get_filename_from_url] returns is a plain file name
    with an extension separator: it is not empty, holds no slash, and
    holds a dot. *)
Theorem get_filename_from_url_plain_name (url f : string) :
  filename_of url = Return f ->
  Str.nonempty f = true /\
  Str.contains Str.slash f = false /\
  Str.contains Str.dot f = true.
Proof.
  intros H. split; [|split].
  - eapply get_filename_from_url_nonempty; eassumption.
  - eapply get_filename_from_url_no_slash; eassumption.
  - eapply get_filename_from_url_has_dot; eassumption.
Qed.

(** X2.  A URL whose parsed path is empty or ends in a slash names no
    file: [get_filename_from_url] answers [downloaded_image.jpg]. *)
Theorem get_filename_from_url_of_directory (url : string)
  (parsed : UrlParse.ParseResult) :
  urlparse url = Return parsed ->
  (UrlParse.path parsed = "" \/ exists h, UrlParse.path parsed = h ++ "/") ->
  filename_of url = Return "downloaded_image.jpg".
Proof.
  intros P H. unfold get_filename_from_url. rewrite P. cbn [Py.bind].
  assert (E : Str.basename (UrlParse.path parsed) = "").
  { destruct H as [-> | (h & ->)];
      [reflexivity | apply StrMore.basename_trailing_slash]. }
  rewrite E. reflexivity.
Qed.

Lemma fetch_image_state (w : world) (url : string) (s : dir_state) :
  snd (fetch w url s) = snd (fetch_try w url s).
Proof.
  unfold fetch_image. now destruct (fetch_try w url s) as [[o|e] s'].
Qed.

(** What a call leaves of the directory: what was there, with at most
    one entry added at the end. *)
Lemma fetch_image_try_state (w : world) (url : string) (s : dir_state) :
  (snd (fetch_try w url s) = s /\ s = None /\
   exists m, mkdir_error w = Some m) \/
  exists d', snd (fetch_try w url s) = Some d' /\
    exists extra, d' = (entries s ++ extra)%list /\ List.length extra <= 1.
Proof.
  unfold fetch_image_try.
  pose proof (makedirs_cases w s) as MC.
  destruct (makedirs w s) as [d|e] eqn:M.
  - right. destruct MC as [<- _].
    pose proof (fetch_in_directory_cases bracketed_host_ok w url (entries s)) as C.
    destruct (fetch_dir w url (entries s)) as [r d']. simpl.
    exists d'. split; [reflexivity|].
    assert (K : d' = entries s \/
                exists x, d' = (entries s ++ [x])%list).
    { destruct r as [[f|u ct|f|m]|e].
      - destruct C as (? & ? & body & C). decompose [and] C. eauto.
      - destruct C as [-> _]. auto.
      - auto.
      - contradiction.
      - destruct C as [_ [-> | (f & body & kept & m & _ & _ & ->)]]; eauto. }
    destruct K as [-> | (x & ->)].
    + exists []. rewrite app_nil_r. auto.
    + exists [x]. auto.
  - left. split; [reflexivity|].
    destruct MC as (_ & SN & ME). eauto.
Qed.

(** The listing after a call is the listing before it with at most one
    entry added by [put]. *)
Lemma fetch_image_only_appends (w : world) (url : string) (s : dir_state) :
  exists extra,
    entries (snd (fetch w url s)) = (entries s ++ extra)%list /\
    List.length extra <= 1.
Proof.
  rewrite fetch_image_state.
  destruct (fetch_image_try_state w url s) as [[-> _] | (d' & -> & extra & -> & L)].
  - exists []. rewrite app_nil_r. auto.
  - exists extra. auto.
Qed.

(** X8.  The directory is created before anything else is tried: when it
    exists already or can be created, it exists after the call, whatever
    the request and the rest of the call come to. *)
Theorem fetch_image_leaves_directory (w : world) (url : string)
  (s : dir_state) :
  s <> None \/ mkdir_error w = None ->
  exists d', snd (fetch w url s) = Some d'.
Proof.
  intros H. rewrite fetch_image_state.
  destruct (fetch_image_try_state w url s)
    as [(_ & SN & m & ME) | (d' & E & _)]; [|eauto].
  exfalso. destruct H as [H | H]; congruence.
Qed.



Lemma duplicate_scan_true (h : string) (d : listing) :
  duplicate_scan h d = Return true ->
  exists n data, In (n, File data true) d /\ MD5.hexdigest data = h.
Proof.
  induction d as [|[n [data [|]|]] d IH]; simpl; try discriminate.
  - destruct (String.eqb_spec h (MD5.hexdigest data)) as [E|NE].
    + intros _. exists n, data. auto.
    + intros H. destruct (IH H) as (n' & data' & I & E). eauto.
  - intros H. destruct (IH H) as (n' & data' & I & E). eauto.
Qed.

Lemma fetch_image_duplicate_inv (w : world) (url : string)
  (s s' : dir_state) (f : string) :
  fetch w url s = (Return (SkippedDuplicate f), s') ->
  exists resp fname body,
    http_get w url = inr resp /\
    filename_of url = Return fname /\
    f = safe_filename (entries s) fname /\
    content resp = inr body /\
    duplicate_scan (MD5.hexdigest body) (entries s) = Return true /\
    s' = Some (entries s).
Proof.
  unfold fetch_image.
  destruct (fetch_try w url s) as [[o|e] s0] eqn:T.
  2:{ pose proof (fetch_image_try_caught _ _ _ _ _ _ T) as K.
      destruct (fetch_image_except_caught url e K) as (m & -> & _).
      discriminate. }
  intros H. inversion H; subst. clear H.
  unfold fetch_image_try in T.
  pose proof (makedirs_cases w s) as MC.
  destruct (makedirs w s) as [d|e]; [|discriminate].
  destruct MC as [<- _].
  unfold fetch_in_directory, requests_get, response_content, write_file in T.
  destruct (http_get w url) as [m|resp]; [discriminate|].
  destruct (raise_for_status url resp) as [[]|e]; [|discriminate].
  destruct (Str.startswith "image/" (content_type_of resp));
    cbn [negb] in T; [|discriminate].
  destruct (filename_of url) as [fname|e]; [|discriminate].
  destruct (content resp) as [m|body] eqn:C; [discriminate|].
  destruct (duplicate_scan (MD5.hexdigest body) (entries s))
    as [[|]|e] eqn:DS; [| |discriminate].
  - inversion T; subst. exists resp, fname, body.
    repeat (split; [first [reflexivity | assumption]|]). reflexivity.
  - destruct (lookup _ _) as [[|]|]; try discriminate;
      destruct (disk w _ body); discriminate.
Qed.

(** X10.  A [SkippedDuplicate] report is truthful about the contents and
    not about the name: some readable file of the directory hashes like
    the body of the response and the directory is left as it was, but the
    name reported is the collision-resolved name the image would have got,
    a name that does not exist in the directory. *)
Theorem duplicate_report_is_truthful (w : world) (url : string)
  (s s' : dir_state) (f : string) :
  fetch w url s = (Return (SkippedDuplicate f), s') ->
  s' = Some (entries s) /\
  exists_ (entries s) f = false /\
  exists resp body n data,
    http_get w url = inr resp /\
    content resp = inr body /\
    In (n, File data true) (entries s) /\
    MD5.hexdigest data = MD5.hexdigest body.
Proof.
  intros F.
  apply fetch_image_duplicate_inv in F
    as (resp & fname & body & G & FN & -> & C & DS & ->).
  split; [reflexivity|]. split; [apply safe_filename_free|].
  apply duplicate_scan_true in DS as (n & data & I & E).
  exists resp, body, n, data. auto.
Qed.

Lemma fetch_image_duplicate_intro (w : world) (url : string) (d : listing)
  (resp : response) (fname : string) (body : list byte) :
  http_get w url = inr resp ->
  raise_for_status url resp = Return tt ->
  Str.startswith "image/" (content_type_of resp) = true ->
  filename_of url = Return fname ->
  content resp = inr body ->
  duplicate_scan (MD5.hexdigest body) d = Return true ->
  fetch w url (Some d)
  = (Return (SkippedDuplicate (safe_filename d fname)), Some d).
Proof.
  intros G RS CT FN C DS. apply fetch_image_of_try.
  unfold fetch_image_try. rewrite makedirs_existing.
  unfold fetch_in_directory, requests_get, response_content.
  rewrite G, RS, CT, FN, C, DS. reflexivity.
Qed.

(** Where the existence tests answer: once a call has saved the body of
    one URL, a call for any other URL answered with the same body, an
    [image/] Content-Type and a status outside 400 to 599 reports
    [SkippedDuplicate] and writes nothing. *)
Lemma same_body_from_other_url_is_duplicate (w : world)
  (url url' : string) (s s1 : dir_state) (f fname' : string)
  (resp resp' : response) :
  fetch w url s = (Return (Saved f), s1) ->
  http_get w url = inr resp ->
  http_get w url' = inr resp' ->
  content resp' = content resp ->
  ~ (400 <= status_code resp' < 600) ->
  Str.startswith "image/" (content_type_of resp') = true ->
  filename_of url' = Return fname' ->
  exists f', fetch w url' s1 = (Return (SkippedDuplicate f'), s1).
Proof.
  intros F G G' CE ST CT FN.
  apply fetch_image_saved_inv in F
    as (d & resp0 & fname & body & M & G0 & RS & CT0 & FN0 & -> & C & DS & W & L & ->).
  assert (resp0 = resp) by congruence. subst resp0.
  eexists.
  apply fetch_image_duplicate_intro
    with (resp := resp') (fname := fname') (body := body).
  - exact G'.
  - now apply raise_for_status_ok.
  - exact CT.
  - exact FN.
  - congruence.
  - rewrite (duplicate_scan_app _ _ _ DS). simpl.
    now rewrite String.eqb_refl.
Qed.

(** Where the existence tests answer: with a readable file hashing like
    the body, and only readable files hashing otherwise listed before it,
    the call reports [SkippedDuplicate] whatever is listed after it,
    unreadable files included. *)
Lemma first_duplicate_ends_scan (w : world) (url : string)
  (before after : listing) (name : string) (data : list byte)
  (resp : response) (fname : string) (body : list byte) :
  http_get w url = inr resp ->
  ~ (400 <= status_code resp < 600) ->
  Str.startswith "image/" (content_type_of resp) = true ->
  filename_of url = Return fname ->
  content resp = inr body ->
  duplicate_scan (MD5.hexdigest body) before = Return false ->
  MD5.hexdigest data = MD5.hexdigest body ->
  fetch w url (Some (before ++ (name, File data true) :: after)%list)
  = (Return (SkippedDuplicate
               (safe_filename (before ++ (name, File data true) :: after)%list
                              fname)),
     Some (before ++ (name, File data true) :: after)%list).
Proof.
  intros G ST CT FN C DS E.
  apply fetch_image_duplicate_intro with (resp := resp) (body := body).
  - exact G.
  - now apply raise_for_status_ok.
  - exact CT.
  - exact FN.
  - exact C.
  - rewrite (duplicate_scan_app _ _ _ DS). simpl.
    now rewrite E, String.eqb_refl.
Qed.

(** *** More on the driver *)

(** X14.  No URL handed to [fetch_image] by the driver is empty, holds a
    comma, or begins or ends with white space. *)
Theorem read_urls_clean (line url : string) :
  In url (read_urls line) ->
  Str.nonempty url = true /\
  Str.contains "," url = false /\
  Str.strip url = url /\
  match first_char url with Some a => Str.isspace a = false | None => True end /\
  match last_char url with Some a => Str.isspace a = false | None => True end.
Proof.
  unfold read_urls. intros I.
  apply in_map_iff in I as (piece & <- & I).
  apply filter_In in I as [I N].
  split; [exact N|].
  split; [apply StrMore.strip_keeps_absent;
          now apply StrFacts.split_pieces with (s := line)|].
  split; [apply StrFacts.strip_idempotent | apply StrMore.strip_ends].
Qed.

Lemma read_urls_only_separators (line : string) :
  only_separators line = true -> read_urls line = [].
Proof.
  intros H. unfold read_urls.
  assert (A : forall piece, In piece (Str.split "," line) ->
                            Str.nonempty (Str.strip piece) = false).
  { intros piece I.
    now rewrite (StrMore.strip_all_space _
                   (StrMore.split_only_separators line piece H I)). }
  induction (Str.split "," line) as [|p ps IH]; simpl; [reflexivity|].
  rewrite (A p (or_introl eq_refl)). apply IH.
  intros piece I. apply A. now right.
Qed.

(** X15.  A line of nothing but commas and white space, the empty line
    among them, gives no URL: the driver fetches nothing and leaves the
    directory untouched, not even created. *)
Theorem main_blank_line (w : world) (line : string) (s : dir_state) :
  only_separators line = true ->
  read_urls line = [] /\
  main bracketed_host_ok w line s = (Return [], s).
Proof.
  intros H. pose proof (read_urls_only_separators line H) as E.
  split; [exact E|]. unfold main. now rewrite E.
Qed.

Lemma read_urls_app (a b : string) :
  read_urls (a ++ String "," b) = (read_urls a ++ read_urls b)%list.
Proof.
  unfold read_urls. now rewrite StrMore.split_app, filter_app, map_app.
Qed.

Lemma fetch_each_app (w : world) (urls urls' : list string) :
  forall s,
    fetch_each bracketed_host_ok w (urls ++ urls')%list s
    = let (r1, s1) := fetch_each bracketed_host_ok w urls s in
      match r1 with
      | Raise e => (Raise e, s1)
      | Return _ =>
          let (r2, s2) := fetch_each bracketed_host_ok w urls' s1 in
          (then_outcomes r1 r2, s2)
      end.
Proof.
  induction urls as [|url urls IH]; intros s; simpl.
  - destruct (fetch_each bracketed_host_ok w urls' s) as [[os|e] s2];
      reflexivity.
  - destruct (fetch w url s) as [[o|e] s0]; [|reflexivity].
    rewrite IH.
    destruct (fetch_each bracketed_host_ok w urls s0) as [[os1|e] s1];
      [|reflexivity].
    destruct (fetch_each bracketed_host_ok w urls' s1) as [[os2|e] s2];
      reflexivity.
Qed.

(** X16.  Entering two lines as one, joined by a comma, is running the
    driver loop on the first and then, from the directory that leaves, on
    the second: the reports are those of the first followed by those of
    the second. *)
Theorem main_of_joined_lines (w : world) (a b : string)
  (s s1 s2 : dir_state) (os1 os2 : list outcome) :
  main bracketed_host_ok w a s = (Return os1, s1) ->
  main bracketed_host_ok w b s1 = (Return os2, s2) ->
  main bracketed_host_ok w (a ++ String "," b) s
  = (Return (os1 ++ os2)%list, s2).
Proof.
  unfold main. intros A B.
  rewrite read_urls_app, fetch_each_app, A, B. reflexivity.
Qed.

End PipelineMore.

(** ** [os.path.splitext] and the names [safe_filename] makes *)

Module SplitextFacts.

Import Str.

Lemma rfind_absent (c : ascii) (s : string) :
  contains c s = false -> rfind c s = (-1)%Z.
Proof.
  intros H. pose proof (StrFacts.rfind_range c s) as R.
  rewrite <- StrFacts.rfind_contains in H. apply Z.leb_gt in H. lia.
Qed.

Lemma rfind_app_absent (c : ascii) (s t : string) :
  contains c t = false -> rfind c (s ++ t) = rfind c s.
Proof.
  intros H. induction s as [|a s IH]; simpl.
  - now apply rfind_absent.
  - now rewrite IH.
Qed.

Lemma rfind_app_present (c : ascii) (s t : string) :
  contains c t = true ->
  rfind c (s ++ t) = (Z.of_nat (String.length s) + rfind c t)%Z.
Proof.
  intros H. rewrite <- StrFacts.rfind_contains in H. apply Z.leb_le in H.
  induction s as [|a s IH]; simpl String.length; [simpl; lia|].
  simpl append. simpl rfind. rewrite IH.
  destruct (0 <=? Z.of_nat (String.length s) + rfind c t)%Z eqn:E;
    [lia | apply Z.leb_gt in E; lia].
Qed.

Lemma take_drop (n : nat) (s : string) : take n s ++ drop n s = s.
Proof.
  revert n. induction s as [|a s IH]; intros [|n]; simpl; auto.
  now rewrite IH.
Qed.

Lemma length_take (n : nat) (s : string) :
  n <= String.length s -> String.length (take n s) = n.
Proof.
  revert n. induction s as [|a s IH]; intros [|n]; simpl; auto; [lia|].
  intros H. rewrite IH; lia.
Qed.

Lemma drop_app_length (s t : string) : drop (String.length s) (s ++ t) = t.
Proof. induction s as [|a s IH]; simpl; [now destruct t | exact IH]. Qed.

Lemma take_app_length (s t : string) : take (String.length s) (s ++ t) = s.
Proof. induction s as [|a s IH]; simpl; [now destruct t | now rewrite IH]. Qed.

Lemma drop_app_inside (n : nat) (s t : string) :
  n < String.length s ->
  exists a r, drop n s = String a r /\ drop n (s ++ t) = String a (r ++ t).
Proof.
  revert n. induction s as [|a s IH]; intros n H; simpl in H; [lia|].
  destruct n as [|n]; simpl; [eauto|]. apply IH. lia.
Qed.

(** The text from the last occurrence of a character on. *)
Lemma rfind_decompose (c : ascii) (s : string) :
  (0 <= rfind c s)%Z ->
  exists rest,
    drop (Z.to_nat (rfind c s)) s = String c rest /\
    contains c rest = false.
Proof.
  induction s as [|a s IH]; simpl; [lia|].
  pose proof (StrFacts.rfind_range c s) as R.
  destruct (0 <=? rfind c s)%Z eqn:E.
  - apply Z.leb_le in E. intros _.
    destruct (IH E) as (rest & D & C).
    replace (Z.to_nat (rfind c s + 1)) with (S (Z.to_nat (rfind c s))) by lia.
    simpl. eauto.
  - destruct (Ascii.eqb a c) eqn:A; [|lia]. intros _.
    apply Ascii.eqb_eq in A. subst a. simpl.
    exists s. split; [reflexivity|].
    now rewrite <- StrFacts.rfind_contains.
Qed.

(** The loop of [_splitext] sees the characters before the last dot only,
    and needs no more rounds than there are of them. *)
Lemma all_dots_prefix (j : Z) (s t : string) (fuel : nat) :
  (j <= Z.of_nat (String.length s))%Z ->
  forall i, (0 <= i)%Z ->
    all_dots_between fuel i j (s ++ t) = all_dots_between fuel i j s.
Proof.
  intros J. induction fuel as [|fuel IH]; intros i I; simpl; [reflexivity|].
  destruct (i <? j)%Z eqn:L; [|reflexivity].
  apply Z.ltb_lt in L. unfold from.
  destruct (drop_app_inside (Z.to_nat i) s t) as (a & r & -> & ->); [lia|].
  destruct (Ascii.eqb a dot); [apply IH; lia | reflexivity].
Qed.

Lemma all_dots_fuel (j : Z) (p : string) (fuel : nat) :
  forall fuel' i,
    (j - i <= Z.of_nat fuel)%Z -> (j - i <= Z.of_nat fuel')%Z ->
    all_dots_between fuel i j p = all_dots_between fuel' i j p.
Proof.
  induction fuel as [|fuel IH]; intros [|fuel'] i F F'; simpl; try reflexivity.
  - destruct (i <? j)%Z eqn:L; [apply Z.ltb_lt in L; lia | reflexivity].
  - destruct (i <? j)%Z eqn:L; [apply Z.ltb_lt in L; lia | reflexivity].
  - destruct (i <? j)%Z eqn:L; [|reflexivity].
    destruct (from i p) as [|a r]; [reflexivity|].
    destruct (Ascii.eqb a dot); [apply IH; lia | reflexivity].
Qed.

Lemma all_dots_false_extend (j j' : Z) (p : string) (fuel : nat) :
  (j <= j')%Z ->
  forall fuel' i,
    (j' - i <= Z.of_nat fuel')%Z ->
    all_dots_between fuel i j p = false ->
    all_dots_between fuel' i j' p = false.
Proof.
  intros J. induction fuel as [|fuel IH]; intros fuel' i F H; simpl in H;
    [discriminate|].
  destruct (i <? j)%Z eqn:L; [|discriminate].
  apply Z.ltb_lt in L.
  destruct fuel' as [|fuel']; [lia|]. simpl.
  assert (L' : (i <? j')%Z = true) by (apply Z.ltb_lt; lia). rewrite L'.
  destruct (from i p) as [|a r]; [reflexivity|].
  destruct (Ascii.eqb a dot); [apply IH; [lia | exact H] | reflexivity].
Qed.

Lemma of_nat_no_dot (n : nat) : contains dot (of_nat n) = false.
Proof.
  unfold of_nat. induction (Nat.to_uint n) as [|d IH|d IH|d IH|d IH|d IH
                                               |d IH|d IH|d IH|d IH|d IH];
    simpl; auto.
Qed.

Lemma splitext_cases (p : string) :
  (splitext p = (p, "") /\
   ((rfind slash p <? rfind dot p)%Z = false \/
    ((rfind slash p < rfind dot p)%Z /\
     all_dots_between (String.length p) (rfind slash p + 1) (rfind dot p) p
     = true))) \/
  (splitext p = (upto (rfind dot p) p, from (rfind dot p) p) /\
   (rfind slash p < rfind dot p)%Z /\
   all_dots_between (String.length p) (rfind slash p + 1) (rfind dot p) p
   = false).
Proof.
  unfold splitext.
  destruct (rfind slash p <? rfind dot p)%Z eqn:L; [|auto].
  apply Z.ltb_lt in L.
  destruct (all_dots_between _ _ _ _) eqn:A; auto.
Qed.

(** A text without dot or slash put between stem and extension joins the
    stem and leaves the extension. *)
Lemma splitext_insert (p q : string) :
  contains dot q = false ->
  contains slash q = false ->
  splitext (fst (splitext p) ++ q ++ snd (splitext p))
  = (fst (splitext p) ++ q, snd (splitext p)).
Proof.
  intros Qd Qs.
  pose proof (StrFacts.rfind_range slash p) as Rs.
  pose proof (StrFacts.rfind_range dot p) as Rd.
  destruct (splitext_cases p) as [[E C] | (E & L & A)]; rewrite E;
    cbn [fst snd].
  { rewrite StrFacts.append_nil_r. unfold splitext.
    rewrite !rfind_app_absent by assumption.
    destruct C as [L | [L A]]; [now rewrite L|].
    replace (rfind slash p <? rfind dot p)%Z with true
      by (symmetry; now apply Z.ltb_lt).
    rewrite all_dots_prefix by lia.
    rewrite (all_dots_fuel _ _ _ (String.length p)), A; [reflexivity | |lia].
    rewrite StrFacts.length_append. lia. }
  unfold upto, from.
  set (n := Z.to_nat (rfind dot p)).
  destruct (rfind_decompose dot p) as (rest & D & Cr); [lia|].
  fold n in D.
  assert (P : p = take n p ++ drop n p) by (symmetry; apply take_drop).
  assert (Ls : String.length (take n p) = n) by (apply length_take; lia).
  revert P Ls D.
  generalize (take n p) as stem. generalize (drop n p) as ext.
  intros ext stem P Ls D.
  assert (Ed : contains dot ext = true)
    by (rewrite D; cbn [contains]; now rewrite Ascii.eqb_refl).
  assert (Rde : rfind dot ext = 0%Z).
  { rewrite D. cbn [rfind]. rewrite StrFacts.rfind_contains, Cr.
    now rewrite Ascii.eqb_refl. }
  assert (Es : contains slash ext = false).
  { destruct (contains slash ext) eqn:E'; [|reflexivity].
    pose proof (rfind_app_present slash stem ext E') as X.
    rewrite <- P, Ls in X.
    pose proof (StrFacts.rfind_range slash ext) as R'.
    rewrite <- StrFacts.rfind_contains in E'. apply Z.leb_le in E'. lia. }
  assert (Rss : rfind slash stem = rfind slash p)
    by (rewrite P; symmetry; now apply rfind_app_absent).
  assert (As : all_dots_between (String.length p) (rfind slash p + 1)
                 (rfind dot p) stem = false).
  { pose proof (all_dots_prefix (rfind dot p) stem ext (String.length p)
                  ltac:(lia) (rfind slash p + 1)%Z ltac:(lia)) as X.
    rewrite <- P in X. congruence. }
  unfold splitext.
  assert (Rsc : rfind slash (stem ++ q ++ ext) = rfind slash p).
  { rewrite rfind_app_absent; [exact Rss|].
    now rewrite StrFacts.contains_append, Qs, Es. }
  assert (Rdc : rfind dot (stem ++ q ++ ext)
                = Z.of_nat (String.length (stem ++ q))).
  { rewrite <- StrFacts.append_assoc.
    rewrite rfind_app_present by exact Ed. lia. }
  rewrite Rsc, Rdc.
  assert (Lq : String.length (stem ++ q) = n + String.length q)
    by (rewrite StrFacts.length_append; lia).
  replace (rfind slash p <? Z.of_nat (String.length (stem ++ q)))%Z
    with true by (symmetry; apply Z.ltb_lt; lia).
  rewrite (all_dots_false_extend (rfind dot p) _ _ (String.length p)).
  - unfold upto, from. rewrite Nat2Z.id.
    rewrite <- StrFacts.append_assoc.
    now rewrite take_app_length, drop_app_length.
  - lia.
  - rewrite !StrFacts.length_append. lia.
  - rewrite all_dots_prefix by lia. exact As.
Qed.

End SplitextFacts.

(** X5.  [safe_filename] keeps the extension: the name it returns has the
    extension, in the sense of [os.path.splitext], of the name it was
    given, and when it had to rename, the stem of the name given followed
    by an underscore and a number. *)
Theorem safe_filename_keeps_extension (d : listing) (filename : string) :
  snd (Str.splitext (safe_filename d filename)) = snd (Str.splitext filename) /\
  (exists_ d filename = true ->
   exists N,
     1 <= N /\
     fst (Str.splitext (safe_filename d filename))
     = fst (Str.splitext filename) ++ "_" ++ Str.of_nat N).
Proof.
  pose proof (safe_filename_within_enough d filename (S (List.length d))
                (Nat.lt_succ_diag_r _)) as E.
  unfold safe_filename_within in E.
  destruct (exists_ d filename) eqn:X.
  - pose proof (SplitextFacts.splitext_insert filename) as I.
    destruct (Str.splitext filename) as [stem ext]. cbn [fst snd] in *.
    apply probe_sound in E as (N & HN & EN & _ & _).
    rewrite EN. unfold candidate.
    specialize (I ("_" ++ Str.of_nat N)).
    rewrite StrFacts.append_assoc in I.
    rewrite I.
    + split; [reflexivity|]. intros _. exists N. split; [lia | reflexivity].
    + simpl. apply SplitextFacts.of_nat_no_dot.
    + simpl. apply StrFacts.of_nat_no_slash.
  - assert (E' : safe_filename d filename = filename) by congruence.
    rewrite E'. split; [reflexivity | discriminate].
Qed.

(** ** Names that collide, errors of the connection, and lines re-entered *)

Lemma splitext_join (p : string) :
  fst (Str.splitext p) ++ snd (Str.splitext p) = p.
Proof.
  destruct (SplitextFacts.splitext_cases p) as [[E _] | (E & _ & _)];
    rewrite E; cbn [fst snd].
  - apply StrFacts.append_nil_r.
  - apply SplitextFacts.take_drop.
Qed.

Lemma candidate_differs (p : string) (n : nat) :
  candidate (fst (Str.splitext p)) (snd (Str.splitext p)) n <> p.
Proof.
  intros E. rewrite <- (splitext_join p) in E at 3.
  unfold candidate in E. apply StrFacts.append_inv_head in E.
  apply (f_equal String.length) in E. simpl in E.
  rewrite StrFacts.length_append in E. lia.
Qed.

Lemma exists_snoc (d : listing) (f n : string) (e : entry) :
  exists_ (d ++ [(f, e)])%list n = exists_ d n || String.eqb f n.
Proof.
  unfold exists_.
  assert (L : match lookup n (d ++ [(f, e)])%list with
              | Some _ => true | None => false end
              = match lookup n d with Some _ => true | None => false end
                || String.eqb f n).
  { induction d as [|[m e'] d IH]; simpl.
    - now destruct (String.eqb f n).
    - destruct (String.eqb m n); [reflexivity | exact IH]. }
  rewrite L. now rewrite !orb_assoc.
Qed.

Lemma safe_filename_first_candidate (d : listing) (filename : string) :
  exists_ d filename = true ->
  exists_ d (candidate (fst (Str.splitext filename))
                       (snd (Str.splitext filename)) 1) = false ->
  safe_filename d filename
  = candidate (fst (Str.splitext filename)) (snd (Str.splitext filename)) 1.
Proof.
  intros X F. unfold safe_filename, safe_filename_within. rewrite X.
  destruct (Str.splitext filename) as [stem ext]. cbn [fst snd] in *.
  simpl. now rewrite F.
Qed.

Section PipelineNames.

Variable bracketed_host_ok : string -> bool.

Local Abbreviation filename_of := (get_filename_from_url bracketed_host_ok).
Local Abbreviation fetch_try := (fetch_image_try bracketed_host_ok).
Local Abbreviation fetch := (fetch_image bracketed_host_ok).

(** X12.  Two images that differ, under URLs with the same file name: when
    the first was saved under that very name, the second, if none of the
    stored files hashes like it and [stem_1 ext] is free, is saved as
    [stem_1 ext] next to the first, which stays as it is. *)
Theorem second_image_gets_suffix (w : world) (url url' : string)
  (d : listing) (s1 : dir_state) (fname : string) (resp' : response)
  (body' : list byte) :
  filename_of url = Return fname ->
  fetch w url (Some d) = (Return (Saved fname), s1) ->
  filename_of url' = Return fname ->
  http_get w url' = inr resp' ->
  ~ (400 <= status_code resp' < 600) ->
  Str.startswith "image/" (content_type_of resp') = true ->
  content resp' = inr body' ->
  duplicate_scan (MD5.hexdigest body') (entries s1) = Return false ->
  exists_ d (candidate (fst (Str.splitext fname))
                       (snd (Str.splitext fname)) 1) = false ->
  disk w (candidate (fst (Str.splitext fname)) (snd (Str.splitext fname)) 1)
       body' = Written ->
  fetch w url' s1
  = (Return (Saved (candidate (fst (Str.splitext fname))
                              (snd (Str.splitext fname)) 1)),
     Some (entries s1
           ++ [(candidate (fst (Str.splitext fname))
                          (snd (Str.splitext fname)) 1,
                File body' true)])%list) /\
  exists body, lookup fname (entries s1) = Some (File body true).
Proof.
  intros FN F FN' G' ST CT C' DS' Free W'.
  apply fetch_image_saved_inv in F
    as (d0 & resp & fname0 & body & M & G & RS & _ & FN0 & E & C & DS & W & L & ->).
  rewrite makedirs_existing in M. inversion M; subst d0. clear M.
  assert (fname0 = fname) by congruence. subst fname0.
  cbn [entries] in *.
  set (d1 := (d ++ [(fname, File body true)])%list) in *.
  assert (S1 : safe_filename d1 fname
               = candidate (fst (Str.splitext fname))
                           (snd (Str.splitext fname)) 1).
  { apply safe_filename_first_candidate; unfold d1; rewrite exists_snoc.
    - rewrite String.eqb_refl. apply orb_true_r.
    - rewrite Free. simpl. apply String.eqb_neq. intros EQ.
      symmetry in EQ. now apply candidate_differs in EQ. }
  split.
  - rewrite <- S1.
    apply fetch_image_saved_intro with (resp := resp'); try assumption.
    + reflexivity.
    + now apply raise_for_status_ok.
    + now rewrite S1.
  - exists body. unfold d1. rewrite E in L |- *. now apply lookup_snoc_fresh.
Qed.

Lemma connection_error_state (w : world) (url detail : string)
  (s s' : dir_state) :
  fetch w url s
  = (Return (Failed ("Connection error for " ++ url ++ ": " ++ detail)), s') ->
  entries s' = entries s.
Proof.
  unfold fetch_image, fetch_image_try.
  pose proof (makedirs_cases w s) as MC.
  destruct (makedirs w s) as [d|e].
  2:{ intros H. inversion H; subst. reflexivity. }
  destruct MC as [<- _].
  unfold fetch_in_directory, requests_get, response_content, write_file.
  destruct (http_get w url) as [m|resp];
    [intros H; inversion H; subst; reflexivity|].
  destruct (raise_for_status url resp) as [[]|e];
    [|intros H; inversion H; subst; reflexivity].
  destruct (Str.startswith "image/" (content_type_of resp)); cbn [negb];
    [|discriminate].
  destruct (filename_of url) as [fname|e];
    [|intros H; inversion H; subst; reflexivity].
  destruct (content resp) as [m|body];
    [intros H; inversion H; subst; reflexivity|].
  destruct (duplicate_scan (MD5.hexdigest body) (entries s)) as [[|]|e];
    [discriminate | | intros H; inversion H; subst; reflexivity].
  destruct (lookup _ _) as [[|]|];
    try destruct (disk w _ body);
    try discriminate;
    unfold fetch_image_except; cbn [exn_type exn_text];
    simpl issubclass; cbv iota; intros H; inversion H.
Qed.

(** X17.  A report of a connection error means that nothing was written:
    the entries of the directory are those it had.  (The errors of the
    file system are reported as unexpected errors.) *)
Theorem connection_error_writes_nothing (w : world) (url detail : string)
  (s : dir_state) :
  fst (fetch w url s)
  = Return (Failed ("Connection error for " ++ url ++ ": " ++ detail)) ->
  entries (snd (fetch w url s)) = entries s.
Proof.
  destruct (fetch w url s) as [r s'] eqn:F. cbn [fst snd]. intros ->.
  eapply connection_error_state; eassumption.
Qed.

End PipelineNames.

Lemma split_one_piece (c : ascii) (p : string) :
  Str.contains c p = false -> Str.split c p = [p].
Proof.
  induction p as [|a p IH]; simpl; [reflexivity|].
  intros H. apply orb_false_iff in H as [-> H]. now rewrite IH.
Qed.

(** [split] undoes [join] on pieces that hold no separator. *)
Lemma split_join (c : ascii) (ps : list string) :
  ps <> [] ->
  (forall p, In p ps -> Str.contains c p = false) ->
  Str.split c (Str.join c ps) = ps.
Proof.
  induction ps as [|p ps IH]; [congruence|]. intros _ H.
  destruct ps as [|q ps].
  - simpl. apply split_one_piece. apply H. now left.
  - change (Str.join c (p :: q :: ps))
      with (p ++ String c (Str.join c (q :: ps))).
    rewrite StrMore.split_app, split_one_piece by (apply H; now left).
    simpl. f_equal. apply IH; [discriminate|].
    intros r I. apply H. now right.
Qed.

(** X18.  The URLs the driver reads from a line, joined by commas and
    entered again, are read as the same URLs. *)
Theorem read_urls_round_trip (line : string) :
  read_urls (Str.join "," (read_urls line)) = read_urls line.
Proof.
  assert (clean : forall u, In u (read_urls line) ->
                    Str.nonempty u = true /\ Str.contains "," u = false /\
                    Str.strip u = u).
  { unfold read_urls. intros u I.
    apply in_map_iff in I as (piece & <- & I).
    apply filter_In in I as [I N].
    split; [exact N|].
    split; [apply StrMore.strip_keeps_absent;
            now apply StrFacts.split_pieces with (s := line)|].
    apply StrFacts.strip_idempotent. }
  destruct (read_urls line) as [|u us] eqn:E; [reflexivity|].
  unfold read_urls at 1.
  rewrite split_join; [|discriminate | intros p I; now apply clean].
  revert clean. generalize (u :: us). clear.
  induction l as [|p ps IH]; intros clean; simpl; [reflexivity|].
  destruct (clean p (or_introl eq_refl)) as (N & _ & S).
  rewrite S, N. simpl. rewrite S. f_equal.
  apply IH. intros r I. apply clean. now right.
Qed.

(** ** The further properties at work *)

Module MoreRuns.

Import Scenario Scenario2.

Lemma get_filename_from_url_plain_name_witness :
  Str.nonempty "pic.png" = true /\
  Str.contains Str.slash "pic.png" = false /\
  Str.contains Str.dot "pic.png" = true.
Proof.
  apply (get_filename_from_url_plain_name any_host pic_url "pic.png").
  vm_compute. reflexivity.
Defined.

Lemma get_filename_from_url_of_directory_witness :
  get_filename_from_url any_host "http://example.com/images/"
  = Return "downloaded_image.jpg".
Proof.
  apply (get_filename_from_url_of_directory any_host
           "http://example.com/images/"
           (UrlParse.mkParseResult "http" "example.com" "/images/" "" "" "")).
  - vm_compute. reflexivity.
  - right. exists "/images". reflexivity.
Defined.

Lemma fetch_image_leaves_directory_witness :
  exists d', snd (fetch_image any_host (serving (html_response 404) Written)
                    pic_url None) = Some d'.
Proof.
  apply fetch_image_leaves_directory. right. reflexivity.
Defined.


Lemma duplicate_report_is_truthful_witness :
  Some [("pic.png", File B true)]
  = Some (entries (Some [("pic.png", File B true)])) /\
  exists_ (entries (Some [("pic.png", File B true)])) "pic_1.png" = false /\
  exists resp body n data,
    http_get healthy pic_url = inr resp /\
    content resp = inr body /\
    In (n, File data true) (entries (Some [("pic.png", File B true)])) /\
    MD5.hexdigest data = MD5.hexdigest body.
Proof.
  apply (duplicate_report_is_truthful any_host healthy pic_url
           (Some [("pic.png", File B true)])
           (Some [("pic.png", File B true)]) "pic_1.png").
  vm_compute. reflexivity.
Defined.

Lemma second_image_gets_suffix_witness :
  fetch_image any_host two_images second_url (Some [("pic.png", File B true)])
  = (Return (Saved (candidate (fst (Str.splitext "pic.png"))
                              (snd (Str.splitext "pic.png")) 1)),
     Some (entries (Some [("pic.png", File B true)])
           ++ [(candidate (fst (Str.splitext "pic.png"))
                          (snd (Str.splitext "pic.png")) 1,
                File B2 true)])%list) /\
  exists body,
    lookup "pic.png" (entries (Some [("pic.png", File B true)]))
    = Some (File body true).
Proof.
  apply (second_image_gets_suffix any_host two_images first_url second_url
           [] (Some [("pic.png", File B true)]) "pic.png"
           (mkResponse 200 (Some "image/jpeg") (inr B2)) B2);
    try (vm_compute; reflexivity).
  simpl. lia.
Defined.

Lemma read_urls_clean_witness :
  Str.nonempty "a" = true /\
  Str.contains "," "a" = false /\
  Str.strip "a" = "a" /\
  match first_char "a" with Some a => Str.isspace a = false | None => True end /\
  match last_char "a" with Some a => Str.isspace a = false | None => True end.
Proof.
  apply (read_urls_clean " a , b" "a"). vm_compute. left. reflexivity.
Defined.

Lemma main_blank_line_witness :
  read_urls " , ," = [] /\
  main any_host healthy " , ," None = (Return [], None).
Proof.
  apply (main_blank_line any_host healthy " , ," None). reflexivity.
Defined.

Lemma main_of_joined_lines_witness :
  main any_host two_images (first_url ++ String "," second_url) None
  = (Return ([Saved "pic.png"] ++ [Saved "pic_1.png"])%list,
     Some [("pic.png", File B true); ("pic_1.png", File B2 true)]).
Proof.
  apply (main_of_joined_lines any_host two_images first_url second_url None
           (Some [("pic.png", File B true)])
           (Some [("pic.png", File B true); ("pic_1.png", File B2 true)])
           [Saved "pic.png"] [Saved "pic_1.png"]);
    vm_compute; reflexivity.
Defined.

Lemma connection_error_writes_nothing_witness :
  entries (snd (fetch_image any_host offline pic_url (Some old_dir)))
  = entries (Some old_dir).
Proof.
  apply (connection_error_writes_nothing any_host offline pic_url
           "Connection timed out" (Some old_dir)).
  vm_compute. reflexivity.
Defined.

End MoreRuns.

(** * The existence test that can fail *)

(** ** The length of the candidates *)

Lemma utf8_length_append (a b : string) :
  utf8_length (a ++ b) = utf8_length a + utf8_length b.
Proof.
  induction a as [|x a IH]; simpl; [reflexivity|]. rewrite IH. lia.
Qed.

Lemma utf8_length_uint (d : uint) :
  utf8_length (NilEmpty.string_of_uint d) = nb_digits d.
Proof. induction d; simpl; congruence. Qed.

Lemma nb_digits_succ (d : uint) : nb_digits d <= nb_digits (Little.succ d).
Proof. induction d; simpl; lia. Qed.

Lemma of_nat_length_succ (n : nat) :
  utf8_length (Str.of_nat n) <= utf8_length (Str.of_nat (S n)).
Proof.
  unfold Str.of_nat.
  rewrite !utf8_length_uint, !Unsigned.to_uint_alt, !DecimalFacts.nb_digits_rev.
  rewrite Unsigned.to_lu_succ. apply nb_digits_succ.
Qed.

Lemma of_nat_length_mono (m n : nat) :
  m <= n -> utf8_length (Str.of_nat m) <= utf8_length (Str.of_nat n).
Proof.
  induction 1 as [|n L IH]; [lia|].
  pose proof (of_nat_length_succ n). lia.
Qed.

Lemma candidate_length (stem ext : string) (n : nat) :
  utf8_length (candidate stem ext n)
  = utf8_length stem + 1 + utf8_length (Str.of_nat n) + utf8_length ext.
Proof.
  unfold candidate. rewrite utf8_length_append. simpl.
  rewrite utf8_length_append. lia.
Qed.

Lemma candidate_length_mono (stem ext : string) (m n : nat) :
  m <= n ->
  utf8_length (candidate stem ext m) <= utf8_length (candidate stem ext n).
Proof.
  intros L. rewrite !candidate_length.
  pose proof (of_nat_length_mono m n L). lia.
Qed.

Lemma candidate_longer (p : string) (n : nat) :
  utf8_length p
  <= utf8_length (candidate (fst (Str.splitext p)) (snd (Str.splitext p)) n).
Proof.
  rewrite candidate_length. rewrite <- (splitext_join p) at 1.
  rewrite utf8_length_append. lia.
Qed.

(** ** The loop over a test that answers or raises *)

Section CheckedNames.

Variable path_exists : string -> result bool.

Lemma checked_probe_least (name ext : string) (N : nat) :
  (forall M, 1 <= M < N -> path_exists (candidate name ext M) = Return true) ->
  path_exists (candidate name ext N) <> Return true ->
  forall fuel counter,
    1 <= counter <= N -> N < counter + fuel ->
    Checked.probe path_exists fuel name ext counter
    = Some match path_exists (candidate name ext N) with
           | Raise e => Raise e
           | Return _ => Return (candidate name ext N)
           end.
Proof.
  intros Below At. induction fuel as [|fuel IH]; intros counter C F; [lia|].
  simpl. destruct (Nat.eq_dec counter N) as [-> | NE].
  - destruct (path_exists (candidate name ext N)) as [[|]|e];
      [congruence | reflexivity | reflexivity].
  - rewrite Below by lia. apply IH; lia.
Qed.

Lemma checked_probe_some (name ext : string) (N : nat) :
  path_exists (candidate name ext N) <> Return true ->
  forall fuel counter,
    counter <= N -> N < counter + fuel ->
    exists r, Checked.probe path_exists fuel name ext counter = Some r.
Proof.
  intros At. induction fuel as [|fuel IH]; intros counter C F; [lia|].
  simpl. destruct (path_exists (candidate name ext counter)) as [[|]|e] eqn:E;
    eauto.
  apply IH; [|lia].
  destruct (Nat.eq_dec counter N) as [-> | NE]; [congruence | lia].
Qed.

Lemma checked_probe_more_fuel (name ext : string) (fuel fuel' : nat) :
  forall counter r,
    Checked.probe path_exists fuel name ext counter = Some r ->
    fuel <= fuel' ->
    Checked.probe path_exists fuel' name ext counter = Some r.
Proof.
  revert fuel'. induction fuel as [|fuel IH]; intros fuel' counter r H L;
    [discriminate|].
  destruct fuel' as [|fuel']; [lia|]. simpl in *.
  destruct (path_exists (candidate name ext counter)) as [[|]|e];
    [apply IH; [exact H | lia] | exact H | exact H].
Qed.

(** Pigeonhole, for the candidates the test reports as existing. *)
Lemma checked_free_candidate (name ext : string) (l : list string) :
  (forall n, path_exists (candidate name ext n) = Return true ->
             In (candidate name ext n) l) ->
  exists N,
    1 <= N <= S (List.length l) /\
    path_exists (candidate name ext N) <> Return true.
Proof.
  intros Fin.
  set (seen := fun x => match path_exists x with
                        | Return true => true | _ => false end).
  set (cands := map (candidate name ext) (seq 1 (S (List.length l)))).
  destruct (forallb seen cands) eqn:F.
  - exfalso.
    assert (ND : NoDup cands).
    { apply Injective_map_NoDup; [|apply seq_NoDup].
      intros n m. apply candidate_inj. }
    assert (I : incl cands l).
    { intros c Hc. pose proof Hc as Hc'.
      apply in_map_iff in Hc as (n & <- & _). apply Fin.
      rewrite forallb_forall in F. specialize (F _ Hc'). unfold seen in F.
      now destruct (path_exists (candidate name ext n)) as [[|]|e]. }
    pose proof (NoDup_incl_length ND I) as L.
    unfold cands in L. rewrite length_map, length_seq in L. lia.
  - apply forallb_false_witness in F as (c & Hc & Fc).
    apply in_map_iff in Hc as (n & <- & Hn). apply in_seq in Hn.
    exists n. split; [lia|]. unfold seen in Fc. intros E. now rewrite E in Fc.
Qed.

(** C2, as amended.  For every directory, seen through its existence
    test, and every file name: when the test of the name raises,
    [safe_filename] raises that error; when it answers no, the name is
    returned unchanged; when it answers yes, the candidates [stem_1 ext],
    [stem_2 ext], ... are tested in order, and at the first one, [N], whose
    test does not answer yes, [safe_filename] returns [stem_N ext] if the
    test answered no, and raises the error of the test if it raised. *)
Theorem safe_filename_first_free_or_error (filename : string) :
  match path_exists filename with
  | Raise e =>
      forall fuel,
        Checked.safe_filename_within path_exists fuel filename = Some (Raise e)
  | Return false =>
      forall fuel,
        Checked.safe_filename_within path_exists fuel filename
        = Some (Return filename)
  | Return true =>
      let (stem, ext) := Str.splitext filename in
      forall N,
        1 <= N ->
        (forall M, 1 <= M < N ->
                   path_exists (candidate stem ext M) = Return true) ->
        path_exists (candidate stem ext N) <> Return true ->
        forall fuel,
          N <= fuel ->
          Checked.safe_filename_within path_exists fuel filename
          = Some match path_exists (candidate stem ext N) with
                 | Raise e => Raise e
                 | Return _ => Return (candidate stem ext N)
                 end
  end.
Proof.
  unfold Checked.safe_filename_within.
  destruct (path_exists filename) as [[|]|e]; [|reflexivity|reflexivity].
  destruct (Str.splitext filename) as [stem ext].
  intros N HN Below At fuel F.
  apply checked_probe_least; try assumption; lia.
Qed.

(** C10, as amended.  When only finitely many of the candidates exist, the
    loop of [safe_filename] ends: among the first [length l + 1]
    candidates there is one whose test does not answer yes, and with more
    rounds than that the function has ended, by returning a name or by
    raising the error of a test. *)
Theorem safe_filename_loop_ends (filename : string) (l : list string) :
  (forall n,
      path_exists (candidate (fst (Str.splitext filename))
                             (snd (Str.splitext filename)) n) = Return true ->
      In (candidate (fst (Str.splitext filename))
                    (snd (Str.splitext filename)) n) l) ->
  (exists N,
      1 <= N <= S (List.length l) /\
      path_exists (candidate (fst (Str.splitext filename))
                             (snd (Str.splitext filename)) N) <> Return true) /\
  (forall fuel,
      List.length l < fuel ->
      exists r,
        Checked.safe_filename_within path_exists fuel filename = Some r).
Proof.
  intros Fin.
  destruct (checked_free_candidate _ _ l Fin) as (N & HN & At).
  split; [eauto|].
  intros fuel F. unfold Checked.safe_filename_within.
  destruct (path_exists filename) as [[|]|e]; eauto.
  destruct (Str.splitext filename) as [stem ext]. cbn [fst snd] in *.
  apply checked_probe_some with (N := N); [exact At | lia | lia].
Qed.

End CheckedNames.

(** ** The test on a listing, with the limit on the length of a name *)

Section CheckedListing.

Variable name_max : nat.

Lemma checked_exists_fits (d : listing) (name : string) :
  utf8_length name <= name_max ->
  Checked.exists_ name_max d name = Return (FS.exists_ d name).
Proof.
  intros L. unfold Checked.exists_.
  destruct (Nat.ltb_spec name_max (utf8_length name)); [lia | reflexivity].
Qed.

Lemma checked_exists_inv (d : listing) (name : string) (b : bool) :
  Checked.exists_ name_max d name = Return b ->
  utf8_length name <= name_max /\ FS.exists_ d name = b.
Proof.
  unfold Checked.exists_.
  destruct (Nat.ltb_spec name_max (utf8_length name)) as [L|L];
    [discriminate|].
  intros E. inversion E. split; [lia | reflexivity].
Qed.

Lemma checked_exists_raise_inv (d : listing) (name : string) (e : exn) :
  Checked.exists_ name_max d name = Raise e ->
  name_max < utf8_length name /\ exn_type e = OSError.
Proof.
  unfold Checked.exists_.
  destruct (Nat.ltb_spec name_max (utf8_length name)) as [L|L];
    [|discriminate].
  intros E. inversion E. split; [lia | reflexivity].
Qed.

(** Where the name found fits, no test on the way to it has raised. *)
Lemma checked_probe_fits (d : listing) (name ext : string) :
  forall fuel counter f,
    probe (FS.exists_ d) fuel name ext counter = Some f ->
    utf8_length f <= name_max ->
    Checked.probe (Checked.exists_ name_max d) fuel name ext counter
    = Some (Return f).
Proof.
  induction fuel as [|fuel IH]; intros counter f H L; [discriminate|].
  simpl in H. cbn [Checked.probe].
  destruct (FS.exists_ d (candidate name ext counter)) eqn:E; simpl in H.
  - destruct (probe_sound _ _ _ _ _ _ H) as (N & HN & EN & _).
    rewrite checked_exists_fits, E; [apply IH; assumption|].
    pose proof (candidate_length_mono name ext counter N). subst f. lia.
  - inversion H; subst. rewrite checked_exists_fits, E by exact L.
    reflexivity.
Qed.

Lemma checked_probe_inv (d : listing) (name ext : string) :
  forall fuel counter r,
    Checked.probe (Checked.exists_ name_max d) fuel name ext counter
    = Some (Return r) ->
    probe (FS.exists_ d) fuel name ext counter = Some r /\
    utf8_length r <= name_max.
Proof.
  induction fuel as [|fuel IH]; intros counter r H; [discriminate|].
  cbn [Checked.probe] in H. cbn [probe].
  destruct (Checked.exists_ name_max d (candidate name ext counter))
    as [[|]|e] eqn:E.
  - apply checked_exists_inv in E as [L ->]. cbn [negb]. now apply IH.
  - apply checked_exists_inv in E as [L ->]. cbn [negb].
    inversion H; subst. auto.
  - discriminate.
Qed.

Lemma checked_probe_raises (d : listing) (name ext : string) :
  forall fuel counter e,
    Checked.probe (Checked.exists_ name_max d) fuel name ext counter
    = Some (Raise e) ->
    exn_type e = OSError.
Proof.
  induction fuel as [|fuel IH]; intros counter e H; [discriminate|].
  cbn [Checked.probe] in H.
  destruct (Checked.exists_ name_max d (candidate name ext counter))
    as [[|]|e'] eqn:E.
  - now apply IH in H.
  - discriminate.
  - inversion H; subst. now apply checked_exists_raise_inv in E.
Qed.

Lemma checked_probe_total (d : listing) (name ext : string) :
  forall fuel counter f,
    probe (FS.exists_ d) fuel name ext counter = Some f ->
    exists r,
      Checked.probe (Checked.exists_ name_max d) fuel name ext counter
      = Some r.
Proof.
  induction fuel as [|fuel IH]; intros counter f H; [discriminate|].
  cbn [Checked.probe]. cbn [probe] in H.
  destruct (Checked.exists_ name_max d (candidate name ext counter))
    as [[|]|e] eqn:E; eauto.
  apply checked_exists_inv in E as [_ E]. rewrite E in H. cbn [negb] in H.
  now apply IH in H.
Qed.

Lemma checked_safe_filename_within_more_fuel
  (pe : string -> result bool) (filename : string) (fuel fuel' : nat)
  (r : result string) :
  Checked.safe_filename_within pe fuel filename = Some r ->
  fuel <= fuel' ->
  Checked.safe_filename_within pe fuel' filename = Some r.
Proof.
  unfold Checked.safe_filename_within.
  destruct (pe filename) as [[|]|e]; auto.
  destruct (Str.splitext filename) as [name ext].
  apply checked_probe_more_fuel.
Qed.

(** More rounds than there are entries are never needed. *)
Lemma checked_safe_filename_within_enough (d : listing) (filename : string)
  (fuel : nat) :
  List.length d < fuel ->
  Checked.safe_filename_within (Checked.exists_ name_max d) fuel filename
  = Some (Checked.safe_filename name_max d filename).
Proof.
  intros L.
  assert (E : exists r,
             Checked.safe_filename_within (Checked.exists_ name_max d)
               (S (List.length d)) filename = Some r).
  { pose proof (safe_filename_within_enough d filename (S (List.length d))
                  (Nat.lt_succ_diag_r _)) as P.
    unfold Checked.safe_filename_within. unfold safe_filename_within in P.
    destruct (Checked.exists_ name_max d filename) as [[|]|e] eqn:T; eauto.
    apply checked_exists_inv in T as [_ T]. rewrite T in P.
    destruct (Str.splitext filename) as [name ext].
    now apply checked_probe_total in P. }
  destruct E as (r & E). unfold Checked.safe_filename. rewrite E.
  apply checked_safe_filename_within_more_fuel with (1 := E). lia.
Qed.

Lemma safe_filename_not_shorter (d : listing) (filename : string) :
  utf8_length filename <= utf8_length (safe_filename d filename).
Proof.
  pose proof (safe_filename_within_enough d filename (S (List.length d))
                (Nat.lt_succ_diag_r _)) as E.
  unfold safe_filename_within in E.
  destruct (FS.exists_ d filename).
  - pose proof (candidate_longer filename) as CL.
    destruct (Str.splitext filename) as [name ext]. cbn [fst snd] in CL.
    destruct (probe_sound _ _ _ _ _ _ E) as (N & _ & -> & _). apply CL.
  - replace (safe_filename d filename) with filename by congruence. lia.
Qed.

(** [safe_filename] with the failing test returns what the function above
    returns when that name fits, and raises an [OSError] when it does
    not. *)
Lemma checked_safe_filename_cases (d : listing) (filename : string) :
  (utf8_length (safe_filename d filename) <= name_max /\
   Checked.safe_filename name_max d filename
   = Return (safe_filename d filename)) \/
  (name_max < utf8_length (safe_filename d filename) /\
   exists e, exn_type e = OSError /\
             Checked.safe_filename name_max d filename = Raise e).
Proof.
  pose proof (safe_filename_within_enough d filename (S (List.length d))
                (Nat.lt_succ_diag_r _)) as P.
  pose proof (checked_safe_filename_within_enough d filename
                (S (List.length d)) (Nat.lt_succ_diag_r _)) as Q.
  pose proof (safe_filename_not_shorter d filename) as NS.
  unfold Checked.safe_filename_within in Q. unfold safe_filename_within in P.
  destruct (Checked.exists_ name_max d filename) as [[|]|e0] eqn:T.
  - apply checked_exists_inv in T as [L T]. rewrite T in P.
    destruct (Str.splitext filename) as [name ext].
    destruct (Checked.safe_filename name_max d filename) as [r|e].
    + apply checked_probe_inv in Q as [Q1 Q2]. rewrite Q1 in P.
      inversion P; subst. left. auto.
    + right. split; [|exists e; split; [|reflexivity]].
      * destruct (le_lt_dec (utf8_length (safe_filename d filename)) name_max)
          as [Fit|Long]; [|exact Long].
        rewrite (checked_probe_fits _ _ _ _ _ _ P Fit) in Q. discriminate.
      * now apply checked_probe_raises in Q.
  - apply checked_exists_inv in T as [L T]. rewrite T in P.
    left. replace (safe_filename d filename) with filename by congruence.
    split; [exact L | congruence].
  - apply checked_exists_raise_inv in T as [L T].
    right. split; [lia|]. exists e0. split; [exact T | congruence].
Qed.

Lemma checked_safe_filename_fits (d : listing) (filename : string) :
  utf8_length (safe_filename d filename) <= name_max ->
  Checked.safe_filename name_max d filename = Return (safe_filename d filename).
Proof.
  intros L.
  destruct (checked_safe_filename_cases d filename) as [[_ E] | [Long _]];
    [exact E | lia].
Qed.


End CheckedListing.

Lemma checked_probe_ext (pe pe' : string -> result bool) (fuel : nat)
  (name ext : string) :
  (forall n, pe n = pe' n) ->
  forall counter,
    Checked.probe pe fuel name ext counter
    = Checked.probe pe' fuel name ext counter.
Proof.
  intros E. induction fuel as [|fuel IH]; simpl; intros counter; [reflexivity|].
  now rewrite E, IH.
Qed.

Lemma lookup_app_found (n : string) (e : entry) (d extra : listing) :
  lookup n d = Some e -> lookup n (d ++ extra)%list = Some e.
Proof.
  induction d as [|[m e'] d IH]; simpl; [discriminate|].
  destruct (String.eqb m n); auto.
Qed.

(** ** The pipeline with the test that can fail *)

Section CheckedPipeline.

Variable name_max : nat.
Variable bracketed_host_ok : string -> bool.

Local Abbreviation filename_of := (get_filename_from_url bracketed_host_ok).
Local Abbreviation fetch := (fetch_image bracketed_host_ok).
Local Abbreviation checked_fetch_dir :=
  (Checked.fetch_in_directory name_max bracketed_host_ok).
Local Abbreviation checked_fetch :=
  (Checked.fetch_image name_max bracketed_host_ok).
Local Abbreviation checked_fetch_each :=
  (Checked.fetch_each name_max bracketed_host_ok).
Local Abbreviation checked_main := (Checked.main name_max bracketed_host_ok).

Lemma checked_fetch_in_directory_cases (w : world) (url : string)
  (d : listing) :
  checked_fetch_dir w url d = fetch_in_directory bracketed_host_ok w url d \/
  exists fname e,
    filename_of url = Return fname /\
    name_max < utf8_length (safe_filename d fname) /\
    exn_type e = OSError /\
    checked_fetch_dir w url d = (Raise e, d).
Proof.
  unfold Checked.fetch_in_directory, fetch_in_directory.
  destruct (requests_get w url) as [r|e]; [|left; reflexivity].
  destruct (raise_for_status url r) as [u|e]; [|left; reflexivity].
  destruct (negb (Str.startswith "image/" (content_type_of r)));
    [left; reflexivity|].
  destruct (filename_of url) as [fname|e] eqn:FN; [|left; reflexivity].
  destruct (checked_safe_filename_cases name_max d fname)
    as [[L E] | (L & e & T & E)]; rewrite E.
  - left. reflexivity.
  - right. exists fname, e. auto.
Qed.

(** With the failing test a call does what it does without, or reports
    [Failed] for a name that is too long and leaves the directory as it
    is. *)
Lemma checked_fetch_image_cases (w : world) (url : string) (s : dir_state) :
  checked_fetch w url s = fetch w url s \/
  exists fname detail,
    filename_of url = Return fname /\
    name_max < utf8_length (safe_filename (entries s) fname) /\
    checked_fetch w url s
    = (Return (Failed ("An unexpected error occurred: " ++ detail)),
       Some (entries s)).
Proof.
  unfold Checked.fetch_image, Checked.fetch_image_try,
    fetch_image, fetch_image_try.
  pose proof (makedirs_cases w s) as MC.
  destruct (makedirs w s) as [d|e]; [|left; reflexivity].
  destruct MC as [<- _].
  destruct (checked_fetch_in_directory_cases w url (entries s))
    as [-> | (fname & e & FN & L & T & ->)].
  - left. reflexivity.
  - right. exists fname, (exn_text e).
    split; [exact FN|]. split; [exact L|].
    unfold fetch_image_except. rewrite T. reflexivity.
Qed.

Lemma checked_fetch_image_fits (w : world) (url : string) (s : dir_state) :
  (forall fname,
      filename_of url = Return fname ->
      utf8_length (safe_filename (entries s) fname) <= name_max) ->
  checked_fetch w url s = fetch w url s.
Proof.
  intros Fit.
  destruct (checked_fetch_image_cases w url s)
    as [E | (fname & detail & FN & L & _)]; [exact E|].
  specialize (Fit _ FN). lia.
Qed.

Lemma checked_fetch_image_saved (w : world) (url : string)
  (s s1 : dir_state) (f : string) :
  checked_fetch w url s = (Return (Saved f), s1) ->
  fetch w url s = (Return (Saved f), s1).
Proof.
  intros H.
  destruct (checked_fetch_image_cases w url s)
    as [E | (fname & detail & _ & _ & E)]; rewrite E in H;
    [exact H | discriminate].
Qed.

Lemma checked_fetch_image_too_long (w : world) (url : string) (d : listing)
  (resp : response) (fname : string) :
  http_get w url = inr resp ->
  raise_for_status url resp = Return tt ->
  Str.startswith "image/" (content_type_of resp) = true ->
  filename_of url = Return fname ->
  name_max < utf8_length (safe_filename d fname) ->
  exists detail,
    checked_fetch w url (Some d)
    = (Return (Failed ("An unexpected error occurred: " ++ detail)), Some d).
Proof.
  intros G RS CT FN L.
  destruct (checked_safe_filename_cases name_max d fname)
    as [[Fit _] | (_ & e & T & E)]; [lia|].
  exists (exn_text e).
  unfold Checked.fetch_image, Checked.fetch_image_try.
  rewrite makedirs_existing.
  unfold Checked.fetch_in_directory, requests_get.
  rewrite G, RS, CT, FN, E. cbn [negb].
  unfold fetch_image_except. rewrite T. reflexivity.
Qed.

Lemma checked_fetch_image_state (w : world) (url : string) (s : dir_state) :
  exists extra,
    entries (snd (checked_fetch w url s)) = (entries s ++ extra)%list /\
    List.length extra <= 1.
Proof.
  destruct (checked_fetch_image_cases w url s)
    as [-> | (fname & detail & _ & _ & ->)].
  - apply fetch_image_only_appends.
  - exists []. cbn [snd entries]. rewrite app_nil_r. auto.
Qed.

Lemma checked_fetch_each_state (w : world) (urls : list string) :
  forall s, exists extra,
    entries (snd (checked_fetch_each w urls s)) = (entries s ++ extra)%list /\
    List.length extra <= List.length urls.
Proof.
  induction urls as [|url urls IH]; intros s; cbn [Checked.fetch_each].
  - exists []. cbn [snd]. rewrite app_nil_r. auto.
  - destruct (checked_fetch_image_state w url s) as (x & Ex & Lx).
    destruct (checked_fetch w url s) as [[o|e] s0]; cbn [snd] in Ex.
    + destruct (IH s0) as (y & Ey & Ly).
      exists (x ++ y)%list.
      assert (K : entries (snd (checked_fetch_each w urls s0))
                  = (entries s ++ x ++ y)%list)
        by (rewrite Ey, Ex, app_assoc; reflexivity).
      rewrite length_app. cbn [List.length].
      destruct (checked_fetch_each w urls s0) as [[os|e] s2];
        cbn [snd] in *; (split; [exact K | lia]).
    + exists x. cbn [snd List.length]. split; [exact Ex | lia].
Qed.

(** C5, as amended.  A call that reported [Saved], repeated with the same
    URL in the same world, creates no file: from an empty directory
    exactly one entry is there afterwards.  The second call reports
    [SkippedDuplicate] when the name it asks the file system for (the file
    name of the URL with the first free suffix) is not longer than the
    file system allows, and reports [Failed] when it is. *)
Theorem second_fetch_duplicate_or_name_too_long (w : world) (url : string)
  (s s1 : dir_state) (f : string) :
  checked_fetch w url s = (Return (Saved f), s1) ->
  snd (checked_fetch w url s1) = s1 /\
  (entries s = [] -> List.length (entries s1) = 1) /\
  exists fname,
    filename_of url = Return fname /\
    (utf8_length (safe_filename (entries s1) fname) <= name_max ->
     exists f',
       checked_fetch w url s1 = (Return (SkippedDuplicate f'), s1)) /\
    (name_max < utf8_length (safe_filename (entries s1) fname) ->
     exists detail,
       checked_fetch w url s1
       = (Return (Failed ("An unexpected error occurred: " ++ detail)), s1)).
Proof.
  intros F. apply checked_fetch_image_saved in F.
  destruct (second_fetch_is_duplicate bracketed_host_ok w url s s1 f F)
    as [(f' & D) One].
  destruct (fetch_image_saved_inv bracketed_host_ok w url s s1 f F)
    as (d & resp & fname & body & _ & G & RS & CT & FN & _ & _ & _ & _ & _ & S1).
  assert (Fits : utf8_length (safe_filename (entries s1) fname) <= name_max ->
                 checked_fetch w url s1 = fetch w url s1).
  { intros L. apply checked_fetch_image_fits.
    intros fname0 FN0. rewrite FN in FN0. inversion FN0; subst fname0.
    exact L. }
  assert (Long : name_max < utf8_length (safe_filename (entries s1) fname) ->
                 exists detail,
                   checked_fetch w url s1
                   = (Return (Failed ("An unexpected error occurred: "
                                      ++ detail)), s1)).
  { intros L. rewrite S1 in *. cbn [entries] in L.
    now apply checked_fetch_image_too_long with (resp := resp) (fname := fname). }
  split; [|split; [exact One|]].
  - destruct (le_lt_dec (utf8_length (safe_filename (entries s1) fname))
                        name_max) as [L|L].
    + rewrite (Fits L), D. reflexivity.
    + destruct (Long L) as (detail & ->). reflexivity.
  - exists fname. split; [exact FN|]. split; [|exact Long].
    intros L. exists f'. rewrite (Fits L). exact D.
Qed.


(** X6.  For a name without slash, [safe_filename] looks at nothing but
    which names exist: two directories in which the same names exist,
    whatever the order, the number or the contents of their entries, get
    the same answer, a name or the error of a name too long. *)
Theorem safe_filename_of_same_names (d d' : listing) (filename : string) :
  Str.contains Str.slash filename = false ->
  (forall n, FS.exists_ d n = FS.exists_ d' n) ->
  Checked.safe_filename name_max d filename
  = Checked.safe_filename name_max d' filename.
Proof.
  intros _ E.
  set (fuel := S (Nat.max (List.length d) (List.length d'))).
  assert (H : Checked.safe_filename_within (Checked.exists_ name_max d)
                fuel filename
              = Some (Checked.safe_filename name_max d filename))
    by (apply checked_safe_filename_within_enough; unfold fuel; lia).
  assert (H' : Checked.safe_filename_within (Checked.exists_ name_max d')
                 fuel filename
               = Some (Checked.safe_filename name_max d' filename))
    by (apply checked_safe_filename_within_enough; unfold fuel; lia).
  assert (T : forall n, Checked.exists_ name_max d n
                        = Checked.exists_ name_max d' n)
    by (intros n; unfold Checked.exists_; now rewrite E).
  unfold Checked.safe_filename_within in H, H'. rewrite <- T in H'.
  destruct (Checked.exists_ name_max d filename) as [[|]|e]; [|congruence..].
  destruct (Str.splitext filename) as [name ext].
  rewrite (checked_probe_ext _ _ fuel name ext T) in H. congruence.
Qed.

(** X7.  A call of [fetch_image] never removes, renames or rewrites an
    entry of the directory: every name that led to an entry before the
    call leads to the same entry after it, and the directory has at most
    one entry more. *)
Theorem fetch_image_keeps_entries (w : world) (url : string) (s : dir_state) :
  (forall n e,
      lookup n (entries s) = Some e ->
      lookup n (entries (snd (checked_fetch w url s))) = Some e) /\
  List.length (entries s)
  <= List.length (entries (snd (checked_fetch w url s)))
  <= S (List.length (entries s)).
Proof.
  destruct (checked_fetch_image_state w url s) as (extra & -> & L).
  split; [intros n e; apply lookup_app_found|].
  rewrite length_app. lia.
Qed.

(** X11.  Duplicates are told by content, not by URL or name: once a call
    has saved the body of one URL, a call for any other URL answered with
    the same body, an [image/] Content-Type and a status outside 400 to
    599, whose file name with its suffix is not longer than the file
    system allows, reports [SkippedDuplicate] and writes nothing. *)
Theorem same_body_is_duplicate (w : world) (url url' : string)
  (s s1 : dir_state) (f fname' : string) (resp resp' : response) :
  checked_fetch w url s = (Return (Saved f), s1) ->
  http_get w url = inr resp ->
  http_get w url' = inr resp' ->
  content resp' = content resp ->
  ~ (400 <= status_code resp' < 600) ->
  Str.startswith "image/" (content_type_of resp') = true ->
  filename_of url' = Return fname' ->
  utf8_length (safe_filename (entries s1) fname') <= name_max ->
  exists f', checked_fetch w url' s1 = (Return (SkippedDuplicate f'), s1).
Proof.
  intros F G G' CE ST CT FN L. apply checked_fetch_image_saved in F.
  destruct (same_body_from_other_url_is_duplicate bracketed_host_ok w url url'
              s s1 f fname' resp resp' F G G' CE ST CT FN) as (f' & D).
  exists f'. rewrite <- D. apply checked_fetch_image_fits.
  intros fname0 FN0. rewrite FN in FN0. inversion FN0; subst fname0. exact L.
Qed.

(** X13.  The scan stops at the first duplicate: with a readable file
    hashing like the body, and only readable files hashing otherwise
    listed before it, a call whose file name with its suffix is not
    longer than the file system allows reports [SkippedDuplicate] whatever
    is listed after that file, unreadable files included. *)
Theorem scan_stops_at_first_duplicate (w : world) (url : string)
  (before after : listing) (name : string) (data : list byte)
  (resp : response) (fname : string) (body : list byte) :
  http_get w url = inr resp ->
  ~ (400 <= status_code resp < 600) ->
  Str.startswith "image/" (content_type_of resp) = true ->
  filename_of url = Return fname ->
  content resp = inr body ->
  duplicate_scan (MD5.hexdigest body) before = Return false ->
  MD5.hexdigest data = MD5.hexdigest body ->
  utf8_length
    (safe_filename (before ++ (name, File data true) :: after)%list fname)
  <= name_max ->
  checked_fetch w url (Some (before ++ (name, File data true) :: after)%list)
  = (Return (SkippedDuplicate
               (safe_filename (before ++ (name, File data true) :: after)%list
                              fname)),
     Some (before ++ (name, File data true) :: after)%list).
Proof.
  intros G ST CT FN C DS E L.
  rewrite <- (first_duplicate_ends_scan bracketed_host_ok w url before after
                name data resp fname body G ST CT FN C DS E).
  apply checked_fetch_image_fits.
  intros fname0 FN0. rewrite FN in FN0. inversion FN0; subst fname0. exact L.
Qed.

(** X19.  A whole run of the driver never removes or rewrites a file:
    every name that led to an entry before the run leads to the same
    entry after it, and the directory has at most one entry more for each
    URL of the line. *)
Theorem main_keeps_entries (w : world) (line : string) (s : dir_state) :
  (forall n e,
      lookup n (entries s) = Some e ->
      lookup n (entries (snd (checked_main w line s))) = Some e) /\
  List.length (entries s)
  <= List.length (entries (snd (checked_main w line s)))
  <= List.length (entries s) + List.length (read_urls line).
Proof.
  unfold Checked.main.
  destruct (checked_fetch_each_state w (read_urls line) s) as (extra & -> & L).
  split; [intros n e; apply lookup_app_found|].
  rewrite length_app. lia.
Qed.

End CheckedPipeline.

(** ** Names at the limit of the file system *)

Module LongNames.

Import Scenario Scenario3.

Lemma long_name_lengths :
  utf8_length long_name = 254 /\
  utf8_length longest_name = 255 /\
  utf8_length too_long_name = 256 /\
  utf8_length (candidate (fst (Str.splitext long_name))
                         (snd (Str.splitext long_name)) 1) = 256.
Proof. repeat split; vm_compute; reflexivity. Qed.

Lemma safe_filename_first_free_or_error_witness :
  Checked.safe_filename_within
    (Checked.exists_ 255 [("pic.png", File B true)]) 1 "pic.png"
  = Some (Return "pic_1.png").
Proof.
  apply (safe_filename_first_free_or_error
           (Checked.exists_ 255 [("pic.png", File B true)]) "pic.png" 1).
  - lia.
  - intros M HM. lia.
  - vm_compute. discriminate.
  - lia.
Defined.

(** C2 as it was stated: a name of 256 bytes does not exist in the empty
    directory, and is not returned unchanged; and next to a file with a
    name of 255 bytes the first candidate does not exist, and is not
    returned: in both cases the test raises. *)
Lemma name_too_long_is_not_returned :
  FS.exists_ [] too_long_name = false /\
  Checked.safe_filename 255 [] too_long_name
  = Raise (mkExn OSError ("File name too long: " ++ too_long_name)) /\
  FS.exists_ longest_dir longest_name = true /\
  FS.exists_ longest_dir (letters 251 ++ "_1.png") = false /\
  Checked.safe_filename 255 longest_dir longest_name
  = Raise (mkExn OSError ("File name too long: " ++ letters 251 ++ "_1.png")).
Proof. repeat split; vm_compute; reflexivity. Qed.

Lemma safe_filename_loop_ends_witness :
  (exists N,
      1 <= N <= S (List.length (names old_dir)) /\
      Checked.exists_ 255 old_dir
        (candidate (fst (Str.splitext "old.png"))
                   (snd (Str.splitext "old.png")) N) <> Return true) /\
  (forall fuel,
      List.length (names old_dir) < fuel ->
      exists r,
        Checked.safe_filename_within (Checked.exists_ 255 old_dir) fuel
          "old.png" = Some r).
Proof.
  apply (safe_filename_loop_ends (Checked.exists_ 255 old_dir) "old.png"
           (names old_dir)).
  intros n H. apply checked_exists_inv in H as [_ H].
  now apply candidate_exists_in.
Defined.

(** C10 as it was stated: the directory holds one file, the candidate
    with suffix 1 does not exist, and [safe_filename] returns no name,
    however many rounds the loop is given. *)
Lemma probing_loop_raises :
  names long_dir = [long_name] /\
  FS.exists_ long_dir (letters 250 ++ "_1.png") = false /\
  forall fuel,
    1 <= fuel ->
    Checked.safe_filename_within (Checked.exists_ 255 long_dir) fuel long_name
    = Some (Raise (mkExn OSError
                     ("File name too long: " ++ letters 250 ++ "_1.png"))).
Proof.
  split; [reflexivity|]. split; [vm_compute; reflexivity|].
  intros fuel L. destruct fuel as [|fuel]; [lia|].
  vm_compute. reflexivity.
Qed.

Lemma second_fetch_duplicate_or_name_too_long_witness :
  snd (Checked.fetch_image 255 any_host healthy pic_url
         (Some [("pic.png", File B true)]))
  = Some [("pic.png", File B true)] /\
  (entries None = [] ->
   List.length (entries (Some [("pic.png", File B true)])) = 1) /\
  exists fname,
    get_filename_from_url any_host pic_url = Return fname /\
    (utf8_length
       (safe_filename (entries (Some [("pic.png", File B true)])) fname)
     <= 255 ->
     exists f',
       Checked.fetch_image 255 any_host healthy pic_url
         (Some [("pic.png", File B true)])
       = (Return (SkippedDuplicate f'), Some [("pic.png", File B true)])) /\
    (255 < utf8_length
             (safe_filename (entries (Some [("pic.png", File B true)])) fname)
     ->
     exists detail,
       Checked.fetch_image 255 any_host healthy pic_url
         (Some [("pic.png", File B true)])
       = (Return (Failed ("An unexpected error occurred: " ++ detail)),
          Some [("pic.png", File B true)])).
Proof.
  apply (second_fetch_duplicate_or_name_too_long 255 any_host healthy pic_url
           None (Some [("pic.png", File B true)]) "pic.png").
  vm_compute. reflexivity.
Defined.

(** C5 as it was stated: for a URL whose file name has 254 bytes the
    first call reports [Saved] and the second [Failed]: the name with the
    suffix the second call asks for has 256 bytes. *)
Lemma second_fetch_of_long_name_fails :
  Checked.fetch_image 255 any_host healthy long_url None
  = (Return (Saved long_name), Some long_dir) /\
  Checked.fetch_image 255 any_host healthy long_url (Some long_dir)
  = (Return (Failed ("An unexpected error occurred: File name too long: "
                     ++ letters 250 ++ "_1.png")),
     Some long_dir).
Proof. split; vm_compute; reflexivity. Qed.


Lemma safe_filename_of_same_names_witness :
  Checked.safe_filename 255 [("a.png", File [] true); ("b", Directory)] "a.png"
  = Checked.safe_filename 255 [("b", File B false); ("a.png", Directory)]
      "a.png".
Proof.
  apply safe_filename_of_same_names; [reflexivity|].
  intros n. unfold FS.exists_. cbn [lookup].
  destruct (String.eqb "a.png" n), (String.eqb "b" n); reflexivity.
Defined.

Lemma same_body_is_duplicate_witness :
  exists f',
    Checked.fetch_image 255 any_host healthy "http://other.example/copy.png"
      (Some [("pic.png", File B true)])
    = (Return (SkippedDuplicate f'), Some [("pic.png", File B true)]).
Proof.
  apply (same_body_is_duplicate 255 any_host healthy pic_url
           "http://other.example/copy.png" None
           (Some [("pic.png", File B true)]) "pic.png" "copy.png"
           image_response image_response);
    try (vm_compute; reflexivity).
  - simpl. lia.
  - apply Nat.leb_le. vm_compute. reflexivity.
Defined.

Lemma scan_stops_at_first_duplicate_witness :
  Checked.fetch_image 255 any_host healthy pic_url
    (Some ([("a.png", File ["o"]%byte true)]
           ++ ("copy.png", File B true) :: [("locked.png", File [] false)])%list)
  = (Return (SkippedDuplicate
               (safe_filename
                  ([("a.png", File ["o"]%byte true)]
                   ++ ("copy.png", File B true)
                      :: [("locked.png", File [] false)])%list
                  "pic.png")),
     Some ([("a.png", File ["o"]%byte true)]
           ++ ("copy.png", File B true) :: [("locked.png", File [] false)])%list).
Proof.
  apply (scan_stops_at_first_duplicate 255 any_host healthy pic_url
           [("a.png", File ["o"]%byte true)] [("locked.png", File [] false)]
           "copy.png" B image_response "pic.png" B);
    try (vm_compute; reflexivity).
  - simpl. lia.
  - apply Nat.leb_le. vm_compute. reflexivity.
Defined.

End LongNames.
